(** * fhir-term-browser: search orchestration and ECL construction

    A shallow embedding of [src/main.js]: the merged resource query
    ([mergedFHIRResourceQueries]), the field subscription ([subscribe]), the
    generic search controller ([handleSearchField]) with its page navigation,
    the ECL string builder ([updateSearchString]), the handlers bound by the
    pagination widget ([getPagination]) and the selection of a Code System or
    Value Set result. The functions that only rearrange the page
    ([addFilterFields], [removeFilterFields], [setFilterFields],
    [handleNavigation]) depend on markup and widget libraries outside the
    repository and are not modelled.

    Conventions.
    - JavaScript numbers that the code uses as integers (tokens, offsets,
      totals, page numbers) are [Z]; a value that JavaScript computes as
      [NaN] or an infinity is [None] in [option Z].
    - JavaScript strings are [string]; a character is a code unit below 256.
    - [undefined]/[null] fields are [option]s.
    - A promise is a cell that settles once; the network is the environment
      and decides when each launched query settles and with what. *)

From Stdlib Require Import List String Ascii ZArith Lia Bool Arith Permutation.
Import ListNotations.
Open Scope string_scope.
Open Scope list_scope.

(* ===================================================================== *)
(** ** JavaScript array and string primitives used by the code           *)
(* ===================================================================== *)

Module JS.

(** [Array.prototype.pop]: removes and returns the LAST element. *)
Definition pop {A : Type} (l : list A) : option (A * list A) :=
  match rev l with
  | [] => None
  | x :: r => Some (x, rev r)
  end.

(** [Array.prototype.push] of one element. *)
Definition push {A : Type} (l : list A) (x : A) : list A := l ++ [x].

(** [Array.prototype.includes] on an array of strings. *)
Definition includes (l : list string) (x : string) : bool :=
  existsb (String.eqb x) l.

(** [Array.prototype.join]. *)
Fixpoint join (sep : string) (l : list string) : string :=
  match l with
  | [] => ""
  | [x] => x
  | x :: r => (x ++ sep ++ join sep r)%string
  end.

(** A string is truthy iff it is not empty. *)
Definition truthy (s : string) : bool :=
  match s with
  | EmptyString => false
  | String _ _ => true
  end.

(** White space and line terminators removed by [String.prototype.trim],
    among the code units below 256: TAB, LF, VT, FF, CR, SP, NBSP. *)
Definition isWhiteSpace (c : ascii) : bool :=
  let n := nat_of_ascii c in
  (((9 <=? n) && (n <=? 13)) || (n =? 32) || (n =? 160))%nat.

Fixpoint trimStart (s : string) : string :=
  match s with
  | EmptyString => EmptyString
  | String c r => if isWhiteSpace c then trimStart r else s
  end.

Fixpoint trimEnd (s : string) : string :=
  match s with
  | EmptyString => EmptyString
  | String c r =>
      match trimEnd r with
      | EmptyString => if isWhiteSpace c then EmptyString else String c EmptyString
      | r' => String c r'
      end
  end.

Definition trim (s : string) : string := trimEnd (trimStart s).

Fixpoint reverse (s acc : string) : string :=
  match s with
  | EmptyString => acc
  | String c r => reverse r (String c acc)
  end.

(** [String.prototype.endsWith]. *)
Definition endsWith (s suffix : string) : bool :=
  String.prefix (reverse suffix "") (reverse s "").

(** [Math.ceil (a / b)] for integers [a], [b]: [None] when [b] is zero (the
    quotient is then an infinity or [NaN]). [Z.div] rounds down for both
    signs of the divisor, so the negation of the rounded-down opposite
    rounds up. *)
Definition ceil_div (a b : Z) : option Z :=
  if (b =? 0)%Z then None else Some (- ((- a) / b))%Z.

End JS.

(* ===================================================================== *)
(** ** Remote query gateway and merged resource query                    *)
(* ===================================================================== *)

Module Gateway.

Definition BASE_API_URI : string := "https://ontoserver.dataproducts.nhs.uk/fhir/".

(** The part of a FHIR resource the browser reads. *)
Record Resource := {
  id : string;
  name : string;
  description : string;
  url : string
}.

(** An element of a bundle's [entry] array. *)
Record Entry := {
  resource : Resource;
  fullUrl : string
}.

(** The body of a resource search: [entry] may be absent. *)
Record Bundle := { entry : option (list Entry) }.

(** [new Error(message)]. *)
Record Error := { message : string }.

(** A settled promise. *)
Inductive Settled (A : Type) : Type :=
| Fulfilled (value : A)
| Rejected (reason : Error).
Arguments Fulfilled {A} value.
Arguments Rejected {A} reason.

Inductive ParamValue :=
| PStr (s : string)
| PNum (z : Z)
| PBool (b : bool).

(** The argument of [$.ajax] as far as the call site chooses it. *)
Record Request := {
  req_url : string;
  req_data : list (string * ParamValue)
}.

(** [query(operation, params)]: the request it hands to [$.ajax]. *)
Definition query (operation : string) (params : list (string * ParamValue)) : Request :=
  {| req_url := (BASE_API_URI ++ operation)%string; req_data := params |}.

(** [{ results: ... }], the value the resource queries resolve with. *)
Record Results := { results : list Entry }.

(** [queryFHIRResource]: the [then] callback applied to the settled query. *)
Definition queryFHIRResource (response : Settled Bundle) : Settled Results :=
  match response with
  | Fulfilled b =>
      Fulfilled {| results := match entry b with Some l => l | None => [] end |}
  | Rejected e => Rejected e
  end.

End Gateway.

Module Merged.
Import Gateway.

(** A launched query is known by its position in [queriesArguments]. *)
Definition Handle := nat.

(** The closure state of one call of [mergedFHIRResourceQueries]. *)
Record Merger := {
  queries : list Handle;            (* promises still to be processed *)
  uniqueResults : list Entry;
  uniqueIds : list string;
  awaiting : option Handle;         (* the popped promise whose callback is pending *)
  promise : option (Settled Results) (* the returned promise; None = pending *)
}.

(** [resolve]/[reject] of the returned promise: only the first call counts. *)
Definition settle (v : Settled Results) (m : Merger) : Merger :=
  match promise m with
  | Some _ => m
  | None =>
      {| queries := queries m; uniqueResults := uniqueResults m;
         uniqueIds := uniqueIds m; awaiting := awaiting m; promise := Some v |}
  end.

(** The body of [response.results.forEach]. *)
Definition absorb (m : Merger) (item : Entry) : Merger :=
  if JS.includes (uniqueIds m) (id (resource item)) then m
  else
    {| queries := queries m;
       uniqueResults := JS.push (uniqueResults m) item;
       uniqueIds := JS.push (uniqueIds m) (id (resource item));
       awaiting := awaiting m; promise := promise m |}.

(** The closure after [queries.pop()] left [qs] and the callback of [aw] was
    registered (or, with [None], has run). *)
Definition with_queue (qs : list Handle) (aw : option Handle) (m : Merger) : Merger :=
  {| queries := qs; uniqueResults := uniqueResults m; uniqueIds := uniqueIds m;
     awaiting := aw; promise := promise m |}.

Section Network.
(** What each launched query settles with, and which have settled so far. *)
Variable outcome : Handle -> Settled Bundle.

Definition has_settled (settled : list Handle) (h : Handle) : bool :=
  existsb (Nat.eqb h) settled.

(** [processResults]. A callback registered on a promise that has settled
    runs; one registered on a pending promise waits in [awaiting]. Every
    recursive call follows a [pop], so [fuel] beyond the length of [queries]
    is never used up (see [enough]). *)
Fixpoint processResults (fuel : nat) (settled : list Handle) (m : Merger) : Merger :=
  match fuel with
  | O => m
  | S fuel' =>
      match JS.pop (queries m) with
      | None => settle (Fulfilled {| results := uniqueResults m |}) m
      | Some (lastQuery, rest) =>
          if has_settled settled lastQuery then
            match queryFHIRResource (outcome lastQuery) with
            | Fulfilled response =>
                processResults fuel' settled
                  (fold_left absorb (results response) (with_queue rest None m))
            | Rejected error => settle (Rejected error) (with_queue rest None m)
            end
          else with_queue rest (Some lastQuery) m
      end
  end.

(** What a settled query hands to the reducer. *)
Definition taken (h : Handle) : list Entry :=
  match queryFHIRResource (outcome h) with
  | Fulfilled response => results response
  | Rejected _ => []
  end.

(** Fuel that [processResults] cannot exhaust: one call per queued promise
    and one more to find the queue empty. *)
Definition enough (m : Merger) : nat := S (List.length (queries m)).

(** The promise [h] settles: its pending callback, if any, runs. *)
Definition on_settle (h : Handle) (st : list Handle * Merger) : list Handle * Merger :=
  let (settled, m) := st in
  let settled' := h :: settled in
  match awaiting m with
  | Some a =>
      if Nat.eqb a h then
        match queryFHIRResource (outcome h) with
        | Fulfilled response =>
            let m' := fold_left absorb (results response)
                        (with_queue (queries m) None m) in
            (settled', processResults (enough m') settled' m')
        | Rejected error =>
            (settled', settle (Rejected error) (with_queue (queries m) None m))
        end
      else (settled', m)
  | None => (settled', m)
  end.

(** The state when [mergedFHIRResourceQueries] returns: every query has
    been launched, none has settled yet, and [processResults] ran once. *)
Definition launched (n : nat) : Merger :=
  {| queries := seq 0 n; uniqueResults := []; uniqueIds := [];
     awaiting := None; promise := None |}.

Definition start (n : nat) : list Handle * Merger :=
  ([], processResults (enough (launched n)) [] (launched n)).

(** The network settles the queries in the order [schedule]. *)
Definition run (n : nat) (schedule : list Handle) : list Handle * Merger :=
  fold_left (fun st h => on_settle h st) schedule (start n).
End Network.

(** The requests issued by the [forEach] that launches the queries. *)
Definition launch (queriesArguments : list (string * list (string * ParamValue)))
  : list Request :=
  map (fun pair => query (fst pair) (snd pair)) queriesArguments.

(** [mergedFHIRResourceQueries]: the requests sent, and the state of the
    returned promise once the network has delivered [schedule]. *)
Definition mergedFHIRResourceQueries
    (queriesArguments : list (string * list (string * ParamValue)))
    (outcome : Handle -> Settled Bundle) (schedule : list Handle)
  : list Request * option (Settled Results) :=
  (launch queriesArguments,
   promise (snd (run outcome (List.length queriesArguments) schedule))).

End Merged.

(* ===================================================================== *)
(** ** Search surfaces, the shared context and the page                  *)
(* ===================================================================== *)

Module Search.
Import Gateway.

(** The four search fields wired up by [handleCodeSystem], [handleValueSet],
    [handleConcept] and [handleECLFilter]. *)
Inductive Surface := CodeSystemSearch | ValueSetSearch | ConceptSearch | ECLSearch.

Definition Surface_eqb (a b : Surface) : bool :=
  match a, b with
  | CodeSystemSearch, CodeSystemSearch
  | ValueSetSearch, ValueSetSearch
  | ConceptSearch, ConceptSearch
  | ECLSearch, ECLSearch => true
  | _, _ => false
  end.

(** One value per surface (the four fields, the four result containers). *)
Record PerSurface (A : Type) := {
  ofCodeSystem : A;
  ofValueSet : A;
  ofConcept : A;
  ofECL : A
}.
Arguments ofCodeSystem {A}.
Arguments ofValueSet {A}.
Arguments ofConcept {A}.
Arguments ofECL {A}.

Definition get {A} (s : Surface) (p : PerSurface A) : A :=
  match s with
  | CodeSystemSearch => ofCodeSystem p
  | ValueSetSearch => ofValueSet p
  | ConceptSearch => ofConcept p
  | ECLSearch => ofECL p
  end.

Definition set {A} (s : Surface) (x : A) (p : PerSurface A) : PerSurface A :=
  match s with
  | CodeSystemSearch =>
      {| ofCodeSystem := x; ofValueSet := ofValueSet p; ofConcept := ofConcept p; ofECL := ofECL p |}
  | ValueSetSearch =>
      {| ofCodeSystem := ofCodeSystem p; ofValueSet := x; ofConcept := ofConcept p; ofECL := ofECL p |}
  | ConceptSearch =>
      {| ofCodeSystem := ofCodeSystem p; ofValueSet := ofValueSet p; ofConcept := x; ofECL := ofECL p |}
  | ECLSearch =>
      {| ofCodeSystem := ofCodeSystem p; ofValueSet := ofValueSet p; ofConcept := ofConcept p; ofECL := x |}
  end.

(** [context.conceptSearch] and [context.eclSearch]. *)
Record Paging := {
  count : Z;
  offset : Z;
  activeOnly : bool;
  includeDesignations : bool
}.

(** An element of [expansion.contains]; [designation] may be absent. *)
Record Concept := {
  code : string;
  system : string;
  display : string;
  designation : option (list string);
  inactive : bool
}.

(** The global [context] object. There is ONE [latestSearchToken]. *)
Record Context := {
  latestSearchToken : option Z;
  codeSystem : option Entry;
  valueSet : option Entry;
  concept : option Concept;
  conceptSearch : Paging;
  eclSearch : Paging
}.

Definition initial_paging : Paging :=
  {| count := 100; offset := 0; activeOnly := true; includeDesignations := true |}.

Definition initial_context : Context :=
  {| latestSearchToken := None; codeSystem := None; valueSet := None; concept := None;
     conceptSearch := initial_paging; eclSearch := initial_paging |}.

Definition with_token (t : Z) (c : Context) : Context :=
  {| latestSearchToken := Some t; codeSystem := codeSystem c; valueSet := valueSet c;
     concept := concept c; conceptSearch := conceptSearch c; eclSearch := eclSearch c |}.

Definition with_offset (o : Z) (p : Paging) : Paging :=
  {| count := count p; offset := o; activeOnly := activeOnly p;
     includeDesignations := includeDesignations p |}.

Definition with_conceptSearch (p : Paging) (c : Context) : Context :=
  {| latestSearchToken := latestSearchToken c; codeSystem := codeSystem c;
     valueSet := valueSet c; concept := concept c; conceptSearch := p;
     eclSearch := eclSearch c |}.

Definition with_eclSearch (p : Paging) (c : Context) : Context :=
  {| latestSearchToken := latestSearchToken c; codeSystem := codeSystem c;
     valueSet := valueSet c; concept := concept c; conceptSearch := conceptSearch c;
     eclSearch := p |}.

(** What a result list holds: bundle entries or expansion concepts. *)
Inductive Item :=
| ResourceItem (e : Entry)
| ConceptItem (c : Concept).

(** The object [apiQueryBuilder]'s promise resolves with. *)
Module Response.
Record t := {
  results : list Item;
  offset : option Z;
  pageSize : option Z;
  total : option Z
}.
End Response.

(** The pagination widget: [getPagination(current, total, pageCallback)]. *)
Record Pagination := { current : Z; pages : Z }.

(** The "Results a to b [of n]" line and the widget under it. *)
Record PageInfo := {
  from : Z;
  to : Z;
  of_total : option Z;
  pagination : Pagination
}.

(** What a results container shows. *)
Inductive Content :=
| AsLoaded
| Listing (page : option PageInfo) (items : list Item)
| NoResults
| EmptyPageInfo
| Unfinished (page : option PageInfo)
| ErrorNotice.

(** A results container with its loading icon. *)
Record Panel := {
  content : Content;
  visible : bool;
  rotation : bool;
  paused : bool
}.

(** [#error-container], shared by the four surfaces. *)
Record ErrorBox := { html : string; shown : bool }.

(** A call of [apiQueryBuilder]: who asked, under which token, what was sent. *)
Record Issued := {
  surface : Surface;
  searchToken : Z;
  requests : list Request
}.

(** The page: besides the context, the fields, the containers and the
    queries sent, the scroll animations started ([scrolled], by the id of
    the element scrolled to, oldest first). *)
Record World := {
  context : Context;
  fields : PerSurface string;
  panels : PerSurface Panel;
  errorBox : ErrorBox;
  sent : list Issued;
  scrolled : list string
}.

Definition with_context (c : Context) (w : World) : World :=
  {| context := c; fields := fields w; panels := panels w; errorBox := errorBox w;
     sent := sent w; scrolled := scrolled w |}.

Definition with_field (s : Surface) (v : string) (w : World) : World :=
  {| context := context w; fields := set s v (fields w); panels := panels w;
     errorBox := errorBox w; sent := sent w; scrolled := scrolled w |}.

Definition with_panel (s : Surface) (p : Panel) (w : World) : World :=
  {| context := context w; fields := fields w; panels := set s p (panels w);
     errorBox := errorBox w; sent := sent w; scrolled := scrolled w |}.

Definition with_errorBox (e : ErrorBox) (w : World) : World :=
  {| context := context w; fields := fields w; panels := panels w; errorBox := e;
     sent := sent w; scrolled := scrolled w |}.

Definition with_sent (l : list Issued) (w : World) : World :=
  {| context := context w; fields := fields w; panels := panels w;
     errorBox := errorBox w; sent := l; scrolled := scrolled w |}.

Definition with_scrolled (l : list string) (w : World) : World :=
  {| context := context w; fields := fields w; panels := panels w;
     errorBox := errorBox w; sent := sent w; scrolled := l |}.

(** The paging record a surface reads and writes (the resource searches
    have none). *)
Definition paging (s : Surface) (c : Context) : option Paging :=
  match s with
  | ConceptSearch => Some (conceptSearch c)
  | ECLSearch => Some (eclSearch c)
  | _ => None
  end.


(* ------------------------------------------------------------------- *)
(** *** Search field subscription                                       *)
(* ------------------------------------------------------------------- *)

(** The two event types the handler is bound to. *)
Inductive DomEvent :=
| Change
| Keypress (keyCode : Z).

(** [evt.type === "keypress" && evt.keyCode !== 13]. *)
Definition other_key (evt : DomEvent) : bool :=
  match evt with
  | Change => false
  | Keypress keyCode => negb (keyCode =? 13)%Z
  end.

(** [context.latestSearchToken = token]. *)
Definition mint (token : Z) (w : World) : World :=
  with_context (with_token token (context w)) w.

(** [subscribe(field, callback, minLength)]: the handler it binds, run on
    an event [evt] whose target holds [value] while the clock reads [now]
    ([+ new Date()]). *)
Definition subscribe (minLength : option nat) (callback : Z -> World -> World)
    (value : string) (evt : DomEvent) (now : Z) (w : World) : World :=
  let minLength := match minLength with None => 2%nat | Some m => m end in
  if other_key evt then w
  else if (String.length (JS.trim value) <? minLength)%nat then w
  else
    let token := now in
    callback token (mint token w).

(* ------------------------------------------------------------------- *)
(** *** The generic search controller                                   *)
(* ------------------------------------------------------------------- *)

Definition resource_queries (resourceType value : string) : list Request :=
  Merged.launch
    [ (resourceType, [("name:contains", PStr value)]);
      (resourceType, [("description:contains", PStr value)]);
      (resourceType, [("url", PStr value)]) ].

Definition paging_params (p : Paging) : list (string * ParamValue) :=
  [ ("offset", PNum (offset p)); ("count", PNum (count p));
    ("activeOnly", PBool (activeOnly p));
    ("includeDesignations", PBool (includeDesignations p)) ].

(** The URL of an ECL expansion. *)
Definition ecl_url (valueSetUrl value : string) : string :=
  let url := if negb (JS.endsWith valueSetUrl "?fhir_vs")
             then (valueSetUrl ++ "?fhir_vs")%string else valueSetUrl in
  (url ++ "=ecl/" ++ value)%string.

(** The [apiQueryBuilder] argument of each surface: the requests it sends. *)
Definition apiQueryBuilder (s : Surface) (value : string) (w : World) : list Request :=
  match s with
  | CodeSystemSearch => resource_queries "CodeSystem" value
  | ValueSetSearch => resource_queries "ValueSet" value
  | ConceptSearch =>
      [ query "ValueSet/$expand"
          (("url", PStr (get ValueSetSearch (fields w))) :: ("filter", PStr value)
           :: paging_params (conceptSearch (context w))) ]
  | ECLSearch =>
      [ query "ValueSet/$expand"
          (("url", PStr (ecl_url (get ValueSetSearch (fields w)) value))
           :: paging_params (eclSearch (context w))) ]
  end.

(** [handleSearchField] up to the point where it returns: the loading icon
    spins and the query is on its way. *)
Definition handleSearchField (s : Surface) (searchToken : Z) (w : World) : World :=
  let searchValue := get s (fields w) in
  let p := get s (panels w) in
  let w := with_panel s {| content := content p; visible := visible p;
                           rotation := true; paused := false |} w in
  with_sent (sent w ++ [ {| surface := s; searchToken := searchToken;
                            requests := apiQueryBuilder s searchValue w |} ]) w.

Definition reset_offset (s : Surface) (o : Z) (w : World) : World :=
  match s with
  | ConceptSearch =>
      with_context (with_conceptSearch (with_offset o (conceptSearch (context w))) (context w)) w
  | ECLSearch =>
      with_context (with_eclSearch (with_offset o (eclSearch (context w))) (context w)) w
  | _ => w
  end.

(** The callback each surface hands to [subscribe]. *)
Definition on_trigger (s : Surface) (searchToken : Z) (w : World) : World :=
  handleSearchField s searchToken (reset_offset s 0 w).

(** [minLength] as each surface passes it: only the ECL field passes one. *)
Definition minLength_of (s : Surface) : option nat :=
  match s with
  | ECLSearch => Some 1%nat
  | _ => None
  end.

Definition on_field_event (s : Surface) (evt : DomEvent) (now : Z) (w : World) : World :=
  subscribe (minLength_of s) (on_trigger s) (get s (fields w)) evt now w.

(** The [onPageChange] argument: the concept and ECL searches change the
    offset and search again under the SAME token; the resource searches
    pass none (and never show a pagination). *)
Definition onPageChange (s : Surface) (searchToken : Z) (page : Z) (w : World) : World :=
  match paging s (context w) with
  | Some p => handleSearchField s searchToken (reset_offset s (count p * (page - 1)) w)
  | None => w
  end.

(** [context.latestSearchToken !== searchToken] is false. *)
Definition isCurrent (c : Context) (searchToken : Z) : bool :=
  match latestSearchToken c with
  | Some t => (t =? searchToken)%Z
  | None => false
  end.

(** [getPagination]: [pages[current - 1]] exists only for
    [1 <= current <= total]; otherwise the call throws. *)
Definition getPagination (current total : option Z) : option Pagination :=
  match current, total with
  | Some c, Some t =>
      if ((1 <=? c) && (c <=? t))%Z then Some {| current := c; pages := t |} else None
  | _, _ => None
  end.

(** [Math.ceil(response.offset / response.pageSize) + 1]. *)
Definition current_page (off : Z) (pageSize : option Z) : option Z :=
  match pageSize with
  | Some ps => option_map (fun q => q + 1)%Z (JS.ceil_div off ps)
  | None => None
  end.

(** [Math.ceil(response.total / response.pageSize)]. *)
Definition page_count (total pageSize : option Z) : option Z :=
  match total, pageSize with
  | Some t, Some ps => JS.ceil_div t ps
  | _, _ => None
  end.

(** [resultItemBuilder(item)], [true] when it returns: the builders of the
    resource searches only read attributes; those of the concept and ECL
    searches call [concept.designation.forEach] and throw on a concept that
    has no [designation]. The tag of an [Item] tells which search produced
    it, hence which builder renders it. *)
Definition resultItemBuilder (item : Item) : bool :=
  match item with
  | ResourceItem _ => true
  | ConceptItem c =>
      match designation c with
      | Some _ => true
      | None => false
      end
  end.

(** [results.forEach] over the builder, after which the items are appended,
    the container shown and the icon paused. An exception in a builder
    leaves the cleared container with its page information only; nothing
    after it runs. *)
Definition list_items (s : Surface) (page : option PageInfo) (results : list Item)
    (w : World) : World :=
  let p := get s (panels w) in
  if forallb resultItemBuilder results then
    with_panel s {| content := Listing page results; visible := true;
                    rotation := rotation p; paused := true |} w
  else
    with_panel s {| content := Unfinished page; visible := visible p;
                    rotation := rotation p; paused := paused p |} w.

(** The first callback of [apiQueryBuilder(searchValue).then]. *)
Definition on_success (s : Surface) (searchToken : Z) (response : Response.t)
    (w : World) : World :=
  if negb (isCurrent (context w) searchToken) then w
  else
    let results := Response.results response in
    let w := with_errorBox {| html := html (errorBox w); shown := false |} w in
    let p := get s (panels w) in
    if (0 <? List.length results)%nat then
      match Response.offset response with
      | Some off =>
          match getPagination (current_page off (Response.pageSize response))
                              (page_count (Response.total response) (Response.pageSize response)) with
          | Some pg =>
              list_items s
                (Some {| from := off + 1;
                         to := off + Z.of_nat (List.length results);
                         of_total := Response.total response;
                         pagination := pg |}) results w
          | None =>
              (* the exception leaves the cleared container with its empty
                 page-info block; nothing after it runs *)
              with_panel s {| content := EmptyPageInfo; visible := visible p;
                              rotation := rotation p; paused := paused p |} w
          end
      | None => list_items s None results w
      end
    else
      with_panel s {| content := NoResults; visible := true;
                      rotation := rotation p; paused := true |} w.

(** The value a resource search resolves with, as [handleSearchField] sees it. *)
Definition merged_response (r : Results) : Response.t :=
  {| Response.results := map ResourceItem (results r);
     Response.offset := None; Response.pageSize := None; Response.total := None |}.

(** The body of [ValueSet/$expand]. *)
Record Expansion := {
  contains : option (list Concept);
  expansion_offset : option Z;
  expansion_total : option Z
}.

(** The simplified response built by the concept and ECL searches. *)
Definition expansion_response (p : Paging) (e : Expansion) : Response.t :=
  {| Response.results :=
       map ConceptItem (match contains e with Some l => l | None => [] end);
     Response.offset := expansion_offset e;
     Response.pageSize := Some (count p);
     Response.total := expansion_total e |}.

(** The [then] callback that an [apiQueryBuilder] chains on its query, as
    far as it touches the page: only that of the ECL search does, it
    animates a scroll to [#ecl-filters-title] ("Focus the results"). It runs
    on every successful answer, before the callback of [handleSearchField]
    and its token test. *)
Definition on_answer (s : Surface) (w : World) : World :=
  match s with
  | ECLSearch => with_scrolled (scrolled w ++ ["ecl-filters-title"]) w
  | _ => w
  end.

(** A query of surface [s] succeeds: the callback of its builder, then the
    success callback of [handleSearchField]. *)
Definition on_query_success (s : Surface) (searchToken : Z) (response : Response.t)
    (w : World) : World :=
  on_success s searchToken response (on_answer s w).

(** What the environment does to the page. *)
Inductive Event :=
| Typing (s : Surface) (value : string)
| FieldEvent (s : Surface) (evt : DomEvent) (now : Z)
| PageClick (s : Surface) (searchToken : Z) (page : Z)
| QuerySucceeds (s : Surface) (searchToken : Z) (response : Response.t)
| QueryFails (s : Surface) (searchToken : Z) (error : Error).

(** The two functions of the global [JSON] object that the page uses:
    [JSON.parse] ([None] when it throws) and [JSON.stringify(_, null, 2)].
    They belong to the language, not to the repository. *)
Record JSONObject := {
  value : Type;
  parse : string -> option value;
  stringify : value -> string
}.

Section Controller.
Variable JSON : JSONObject.

(** The [try]/[catch] of the error callback. *)
Definition normalize (error : Error) : string :=
  match JSON.(parse) (message error) with
  | Some jsonError => JSON.(stringify) jsonError
  | None => message error
  end.

(** The second callback of [apiQueryBuilder(searchValue).then]. *)
Definition on_failure (s : Surface) (searchToken : Z) (error : Error)
    (w : World) : World :=
  let p := get s (panels w) in
  let w := with_panel s {| content := ErrorNotice; visible := true;
                           rotation := rotation p; paused := true |} w in
  with_errorBox {| html := normalize error; shown := true |} w.

Definition step (e : Event) (w : World) : World :=
  match e with
  | Typing s value => with_field s value w
  | FieldEvent s evt now => on_field_event s evt now w
  | PageClick s searchToken page => onPageChange s searchToken page w
  | QuerySucceeds s searchToken response => on_query_success s searchToken response w
  | QueryFails s searchToken error => on_failure s searchToken error w
  end.

Definition run (trace : list Event) (w : World) : World :=
  fold_left (fun w e => step e w) trace w.

(** The token an event mints, and for which surface. *)
Definition minted (e : Event) (w : World) : option (Surface * Z) :=
  match e with
  | FieldEvent s evt now =>
      let minLength := match minLength_of s with None => 2%nat | Some m => m end in
      if other_key evt then None
      else if (String.length (JS.trim (get s (fields w))) <? minLength)%nat then None
      else Some (s, now)
  | _ => None
  end.

(** The tokens minted along a trace, oldest first. *)
Fixpoint issued (trace : list Event) (w : World) : list (Surface * Z) :=
  match trace with
  | [] => []
  | e :: rest =>
      match minted e w with
      | Some st => st :: issued rest (step e w)
      | None => issued rest (step e w)
      end
  end.
End Controller.

(** The latest token issued for surface [s], if any. *)
Definition latest_on (s : Surface) (tokens : list (Surface * Z)) : option Z :=
  fold_left (fun acc st => if Surface_eqb (fst st) s then Some (snd st) else acc)
            tokens None.

(** The latest token issued for any surface, [before] if none. *)
Definition latest_overall (before : option Z) (tokens : list (Surface * Z)) : option Z :=
  fold_left (fun _ st => Some (snd st)) tokens before.

End Search.

(* ===================================================================== *)
(** ** The ECL expression builder                                        *)
(* ===================================================================== *)

Module ECL.
Import Search.

(** The [filter] object read from one [.ecl-filter-wrapper]. *)
Record Filter := {
  op : string;
  opLong : string;
  code : string;
  label : string
}.

(** The body of [$(".ecl-filter-wrapper").each]: what it pushes on
    [shortECL] and [longECL]. *)
Definition each_wrapper (acc : list string * list string) (filter : Filter)
  : list string * list string :=
  let (shortECL, longECL) := acc in
  if String.eqb (opLong filter) "ANY" then
    (JS.push shortECL (op filter), JS.push longECL (opLong filter))
  else if JS.truthy (code filter) then
    if JS.truthy (label filter) then
      (JS.push shortECL (op filter ++ " " ++ code filter ++ "|" ++ label filter ++ "|")%string,
       JS.push longECL (opLong filter ++ " " ++ code filter ++ "|" ++ label filter ++ "|")%string)
    else
      (JS.push shortECL (op filter ++ " " ++ code filter)%string,
       JS.push longECL (opLong filter ++ " " ++ code filter)%string)
  else acc.

(** The two arrays when the loop ends. *)
Definition rebuild (wrappers : list Filter) : list string * list string :=
  fold_left each_wrapper wrappers ([], []).

(** [updateSearchString(evt)] over the filter rows in the page: it writes
    the joined short form in the ECL search field and fires its [change]. *)
Definition updateSearchString (evt : option DomEvent) (wrappers : list Filter)
    (now : Z) (w : World) : World :=
  match evt with
  | Some e =>
      if other_key e then w
      else
        on_field_event ECLSearch Change now
          (with_field ECLSearch (JS.join ", " (fst (rebuild wrappers))) w)
  | None =>
      on_field_event ECLSearch Change now
        (with_field ECLSearch (JS.join ", " (fst (rebuild wrappers))) w)
  end.

End ECL.

(* ===================================================================== *)
(** ** The pagination widget                                             *)
(* ===================================================================== *)

Module Pager.
Import Search.

(** The [li] children of the [ul.pagination] that [getPagination] builds, in
    document order: the chevron to the left, one link per page, the chevron
    to the right. *)
Inductive Control :=
| Previous
| PageLink (i : Z)
| Following.

(** [for (let i = 1; i <= total; i++)]. *)
Definition page_links (total : Z) : list Control :=
  map (fun i => PageLink (Z.of_nat i)) (seq 1 (Z.to_nat total)).

(** [container.append(page)] for each page, then [prepend(prev)] and
    [append(next)]. *)
Definition controls (total : Z) : list Control :=
  Previous :: page_links total ++ [Following].

(** [find("li:nth-child(k)")]: children are counted from 1. *)
Definition nth_child (k : Z) (l : list Control) : option Control :=
  if (k <=? 0)%Z then None else nth_error l (Z.to_nat (k - 1)).

(** What the click handlers of a control do. *)
Inductive Reaction :=
| Callback (page : Z)
| Forward (k : Z)
| Ignore.

(** The handlers bound by [getPagination(current, total, pageCallback)]: a
    page link calls [pageCallback(i)]; a chevron is inert at its end of the
    range and otherwise clicks the child at [current] (left) or at
    [current + 2] (right). *)
Definition handler (pg : Pagination) (c : Control) : Reaction :=
  match c with
  | PageLink i => Callback i
  | Previous => if (current pg =? 1)%Z then Ignore else Forward (current pg)
  | Following => if (current pg =? pages pg)%Z then Ignore else Forward (current pg + 2)
  end.

(** A click on a control: the pages [pageCallback] is called with. A
    forwarded click that finds no child does nothing; [depth] bounds the
    forwards followed. *)
Fixpoint click (depth : nat) (pg : Pagination) (c : Control) : list Z :=
  match handler pg c with
  | Callback page => [page]
  | Ignore => []
  | Forward k =>
      match depth with
      | O => []
      | S depth' =>
          match nth_child k (controls (pages pg)) with
          | Some target => click depth' pg target
          | None => []
          end
      end
  end.

(** A click on a control of the widget that the search of [searchToken] on
    surface [s] displayed: [pageCallback] is that search's [onPageChange]. *)
Definition press (depth : nat) (s : Surface) (searchToken : Z) (pg : Pagination)
    (c : Control) (w : World) : World :=
  fold_left (fun w page => onPageChange s searchToken page w) (click depth pg c) w.

End Pager.

(* ===================================================================== *)
(** ** Selecting a result                                                *)
(* ===================================================================== *)

Module Selection.
Import Gateway Search.

Definition with_codeSystem (e : Entry) (c : Context) : Context :=
  {| latestSearchToken := latestSearchToken c; codeSystem := Some e;
     valueSet := valueSet c; concept := concept c;
     conceptSearch := conceptSearch c; eclSearch := eclSearch c |}.

Definition with_valueSet (e : Entry) (c : Context) : Context :=
  {| latestSearchToken := latestSearchToken c; codeSystem := codeSystem c;
     valueSet := Some e; concept := concept c;
     conceptSearch := conceptSearch c; eclSearch := eclSearch c |}.

(** [setVal(field, value)] as far as the field's value goes ([val] stores
    the empty string for [undefined]); the label's style is left out. *)
Definition setVal (s : Surface) (value : option string) (w : World) : World :=
  with_field s (match value with Some v => v | None => "" end) w.

(** [resultsContainer.hide()]. *)
Definition hide (s : Surface) (w : World) : World :=
  let p := get s (panels w) in
  with_panel s {| content := content p; visible := false;
                  rotation := rotation p; paused := paused p |} w.

(** The [onSelectItem] of the Code System search. [valueSetAttribute] is
    [codeSystem.resource.valueSet], which [Resource] does not carry; the
    link written in the helper text is left out. *)
Definition selectCodeSystem (codeSystem : Entry) (valueSetAttribute : option string)
    (w : World) : World :=
  let w := with_context (with_codeSystem codeSystem (context w)) w in
  let w := setVal CodeSystemSearch (Some (name (resource codeSystem))) w in
  let w := setVal ValueSetSearch valueSetAttribute w in
  hide CodeSystemSearch w.

(** The [onSelectItem] of the Value Set search (helper text left out). *)
Definition selectValueSet (valueSet : Entry) (w : World) : World :=
  let w := with_context (with_valueSet valueSet (context w)) w in
  let w := setVal ValueSetSearch (Some (url (resource valueSet))) w in
  hide ValueSetSearch w.

End Selection.

(* ===================================================================== *)
(** ** The specification's vocabulary                                     *)
(* ===================================================================== *)

(** Definitions that follow the words of the specification, to be compared
    with the code above. *)
Module Spec.
Import Gateway.

Definition identifier (e : Entry) : string := id (resource e).

Definition identifiers (l : list Entry) : list string := map identifier l.

Definition same_identifier (e e' : Entry) : bool :=
  String.eqb (identifier e) (identifier e').

(** The entries of a response body ("absent [entry] is zero results"). *)
Definition entries (b : Bundle) : list Entry :=
  match entry b with
  | Some l => l
  | None => []
  end.

(** Every query succeeds, the [h]-th with the [h]-th body. *)
Definition respond (bundles : list Bundle) (h : Merged.Handle) : Settled Bundle :=
  Fulfilled (nth h bundles {| entry := None |}).

(** First-seen order: an entry of the stream is kept iff no entry BEFORE it
    in the stream carries its identifier. *)
Fixpoint first_seen_after (before stream : list Entry) : list Entry :=
  match stream with
  | [] => []
  | e :: rest =>
      if existsb (same_identifier e) before
      then first_seen_after (before ++ [e]) rest
      else e :: first_seen_after (before ++ [e]) rest
  end.

Definition first_seen (stream : list Entry) : list Entry := first_seen_after [] stream.

(** The deduplicating reducer fed the result lists in the order given. *)
Definition reduce (responses : list (list Entry)) : list Entry :=
  Merged.uniqueResults
    (fold_left (fun m r => fold_left Merged.absorb r m) responses (Merged.launched 0)).

(** Every query of a call has settled under the schedule. *)
Definition complete (n : nat) (schedule : list Merged.Handle) : Prop :=
  forall h, (h < n)%nat -> In h schedule.

(** What one filter row emits, [operator] being the short or the long
    operator: the bare operator for an ANY row, nothing for a row without a
    code, the operator and the code otherwise, with the label between bars
    when there is one. *)
Definition emits (operator : ECL.Filter -> string) (row : ECL.Filter) : option string :=
  if string_dec (ECL.opLong row) "ANY" then Some (operator row)
  else if string_dec (ECL.code row) "" then None
  else if string_dec (ECL.label row) ""
       then Some (operator row ++ " " ++ ECL.code row)%string
       else Some (operator row ++ " " ++ ECL.code row ++ "|" ++ ECL.label row ++ "|")%string.

Definition emitted (operator : ECL.Filter -> string) (rows : list ECL.Filter)
  : list string :=
  flat_map (fun row => match emits operator row with
                       | Some s => [s]
                       | None => []
                       end) rows.

(** The least length of the trimmed value that starts a search on a surface. *)
Definition threshold (s : Search.Surface) : nat :=
  match s with
  | Search.ECLSearch => 1
  | _ => 2
  end.

(** The pagination a results container shows, if it shows one. *)
Definition shown_pagination (p : Search.Panel) : option Search.Pagination :=
  match Search.content p with
  | Search.Listing (Some info) _ => Some (Search.pagination info)
  | Search.Unfinished (Some info) => Some (Search.pagination info)
  | _ => None
  end.

(** [q] is the quotient [a / b] rounded up. *)
Definition is_ceiling (q a b : Z) : Prop := (b * (q - 1) < a <= b * q)%Z.

(** A string of white space only. *)
Fixpoint blank (s : string) : bool :=
  match s with
  | EmptyString => true
  | String c r => JS.isWhiteSpace c && blank r
  end.

(** The surfaces that page their results. *)
Definition paged (s : Search.Surface) : bool :=
  match s with
  | Search.ConceptSearch | Search.ECLSearch => true
  | _ => false
  end.

(** The clicks on page controls of paged surfaces in a trace. *)
Definition page_clicks (trace : list Search.Event) : nat :=
  List.length
    (filter (fun e => match e with
                      | Search.PageClick s _ _ => paged s
                      | _ => false
                      end) trace).

(** The paging settings that no handler writes. *)
Definition settings (p : Search.Paging) : Z * bool * bool :=
  (Search.count p, Search.activeOnly p, Search.includeDesignations p).

(** How far apart two paging records may be after some events: the settings
    agree, and the offset is the old one or a multiple of the page size. *)
Definition drifted (p p' : Search.Paging) : Prop :=
  settings p' = settings p
  /\ (Search.offset p' = Search.offset p \/ (Search.count p | Search.offset p')%Z).

End Spec.

(* ===================================================================== *)
(** ** Concrete pages, responses and traces                               *)
(* ===================================================================== *)

Module Sample.
Import Gateway Search.

Definition entry_of (i n : string) : Entry :=
  {| resource := {| id := i; name := n; description := ""; url := "" |};
     fullUrl := "" |}.

Definition concept_of (c d : string) : Concept :=
  {| code := c; system := "http://snomed.info/sct"; display := d;
     designation := Some []; inactive := false |}.

Definition idle : Panel :=
  {| content := AsLoaded; visible := false; rotation := false; paused := false |}.

(** The page before any event. *)
Definition loaded : World :=
  {| context := initial_context;
     fields := {| ofCodeSystem := ""; ofValueSet := ""; ofConcept := ""; ofECL := "" |};
     panels := {| ofCodeSystem := idle; ofValueSet := idle; ofConcept := idle; ofECL := idle |};
     errorBox := {| html := ""; shown := false |};
     sent := []; scrolled := [] |}.

(** A [JSON] whose [parse] accepts nothing: it agrees with the real one on
    every message that is not JSON. *)
Definition strict_JSON : JSONObject :=
  {| value := string; parse := fun _ => None; stringify := fun j => j |}.

(** The three queries of a Code System search for "snomed". *)
Definition three_queries : list (string * list (string * ParamValue)) :=
  [ ("CodeSystem", [("name:contains", PStr "snomed")]);
    ("CodeSystem", [("description:contains", PStr "snomed")]);
    ("CodeSystem", [("url", PStr "snomed")]) ].

(** Two of them return [sct], the third returns [icd10]. *)
Definition three_bundles : list Bundle :=
  [ {| entry := Some [entry_of "sct" "by name"] |};
    {| entry := Some [entry_of "sct" "by description"] |};
    {| entry := Some [entry_of "icd10" "by url"] |} ].

(** The second of three queries fails, the others find nothing. *)
Definition failing (h : Merged.Handle) : Settled Bundle :=
  match h with
  | 1%nat => Rejected {| message := "500" |}
  | _ => Fulfilled {| entry := None |}
  end.

(** The roles exchanged: the first answer brings [icd10], the other two [sct]. *)
Definition exchanged_bundles : list Bundle :=
  [ {| entry := Some [entry_of "icd10" "by name"] |};
    {| entry := Some [entry_of "sct" "by description"] |};
    {| entry := Some [entry_of "sct" "by url"] |} ].

Definition two_queries : list (string * list (string * ParamValue)) :=
  [ ("ValueSet", [("name:contains", PStr "a")]);
    ("ValueSet", [("url", PStr "a")]) ].

Definition two_bundles : list Bundle :=
  [ {| entry := Some [entry_of "first" "1"] |};
    {| entry := Some [entry_of "second" "2"] |} ].

(** A search on the Code System field, then one on the Value Set field. *)
Definition two_surfaces : list Event :=
  [ Typing CodeSystemSearch "snomed"; FieldEvent CodeSystemSearch Change 1000;
    Typing ValueSetSearch "icd"; FieldEvent ValueSetSearch Change 2000 ].

(** A page whose concept panel lists one result of the search of token 7. *)
Definition showing : World :=
  {| context := with_token 7 initial_context;
     fields := {| ofCodeSystem := ""; ofValueSet := "http://snomed.info/sct?fhir_vs";
                  ofConcept := "neoplasm"; ofECL := "" |};
     panels := {| ofCodeSystem := idle; ofValueSet := idle;
                  ofConcept := {| content := Listing None [ConceptItem (concept_of "55342001" "Neoplastic disease")];
                                  visible := true; rotation := true; paused := true |};
                  ofECL := idle |};
     errorBox := {| html := ""; shown := false |};
     sent := []; scrolled := [] |}.

(** A page of two concepts that the server says starts at offset 150. *)
Definition mid_page : Response.t :=
  {| Response.results := [ConceptItem (concept_of "1" "one"); ConceptItem (concept_of "2" "two")];
     Response.offset := Some 150%Z;
     Response.pageSize := Some 100%Z;
     Response.total := Some 250%Z |}.

Definition third_page : Response.t :=
  {| Response.results := [ConceptItem (concept_of "1" "one")];
     Response.offset := Some 200%Z;
     Response.pageSize := Some 100%Z;
     Response.total := Some 250%Z |}.

(** The loaded page with a lone ANY operator in the ECL search field. *)
Definition starred : World := with_field ECLSearch "*" loaded.

(** A first page of one concept whose expansion reports no total. *)
Definition no_total : Response.t :=
  {| Response.results := [ConceptItem (concept_of "1" "one")];
     Response.offset := Some 0%Z; Response.pageSize := Some 100%Z;
     Response.total := None |}.

(** A third page whose second concept comes without [designation]. *)
Definition undesignated : Response.t :=
  {| Response.results :=
       [ ConceptItem (concept_of "1" "one");
         ConceptItem {| code := "2"; system := "http://snomed.info/sct"; display := "two";
                        designation := None; inactive := false |} ];
     Response.offset := Some 200%Z;
     Response.pageSize := Some 100%Z;
     Response.total := Some 250%Z |}.

Definition neoplastic : ECL.Filter :=
  {| ECL.op := "<!"; ECL.opLong := "childOf"; ECL.code := "55342001";
     ECL.label := "Neoplastic disease" |}.

End Sample.

(* ===================================================================== *)
(** ** Facts about the JavaScript primitives                              *)
(* ===================================================================== *)

Module JSFacts.
Import JS.

Lemma pop_snoc {A} (l : list A) (x : A) : pop (l ++ [x]) = Some (x, l).
Proof. unfold pop. rewrite rev_app_distr. simpl. now rewrite rev_involutive. Qed.

Lemma pop_Some {A} (l r : list A) (x : A) : pop l = Some (x, r) -> l = r ++ [x].
Proof.
  destruct l as [|a l _] using rev_ind; [discriminate|].
  rewrite pop_snoc. now intros [= -> ->].
Qed.

Lemma includes_In l x : includes l x = true <-> In x l.
Proof.
  unfold includes. rewrite existsb_exists. split.
  - intros (y & Hy & E). apply String.eqb_eq in E. now subst.
  - intros H. exists x. split; [assumption | apply String.eqb_refl].
Qed.

Lemma includes_false l x : includes l x = false <-> ~ In x l.
Proof.
  rewrite <- includes_In. destruct (includes l x); split; congruence.
Qed.

Lemma truthy_nonempty s : truthy s = true <-> s <> "".
Proof. destruct s; simpl; split; congruence. Qed.

(** [ceil_div] is the ceiling of the quotient for a positive divisor. *)
Lemma ceil_div_is_ceiling (a b : Z) :
  (0 < b)%Z -> exists q, ceil_div a b = Some q /\ Spec.is_ceiling q a b.
Proof.
  intros Hb. unfold ceil_div, Spec.is_ceiling.
  destruct (Z.eqb_spec b 0) as [->|_]; [lia|].
  eexists. split; [reflexivity|].
  pose proof (Z.div_mod (- a) b ltac:(lia)) as E.
  pose proof (Z.mod_pos_bound (- a) b Hb) as B.
  nia.
Qed.

(** On a multiple of the divisor rounding up and rounding down agree. *)
Lemma ceil_div_exact (k b : Z) :
  (0 < b)%Z -> ceil_div (b * k) b = Some ((b * k) / b)%Z.
Proof.
  intros Hb. unfold ceil_div.
  destruct (Z.eqb_spec b 0) as [->|_]; [lia|].
  f_equal. replace (- (b * k))%Z with ((- k) * b)%Z by lia.
  rewrite Z.div_mul by lia. replace (b * k)%Z with (k * b)%Z by lia.
  rewrite Z.div_mul by lia. lia.
Qed.
End JSFacts.

(* ===================================================================== *)
(** ** The merged resource query                                         *)
(* ===================================================================== *)

Module MergedFacts.
Import Gateway Merged Spec JSFacts.

Lemma absorb_queue m e :
  queries (absorb m e) = queries m /\ awaiting (absorb m e) = awaiting m
  /\ promise (absorb m e) = promise m.
Proof. unfold absorb. now destruct (JS.includes _ _). Qed.

Lemma absorb_all_queue l : forall m,
  queries (fold_left absorb l m) = queries m
  /\ awaiting (fold_left absorb l m) = awaiting m
  /\ promise (fold_left absorb l m) = promise m.
Proof.
  induction l as [|e l IH]; intros m; simpl; [easy|].
  destruct (IH (absorb m e)) as (-> & -> & ->). apply absorb_queue.
Qed.

Lemma with_queue_absorb qs aw m e :
  with_queue qs aw (absorb m e) = absorb (with_queue qs aw m) e.
Proof. unfold absorb, with_queue. simpl. now destruct (JS.includes _ _). Qed.

Lemma with_queue_absorb_all qs aw l : forall m,
  with_queue qs aw (fold_left absorb l m) = fold_left absorb l (with_queue qs aw m).
Proof.
  induction l as [|e l IH]; intros m; simpl; [reflexivity|].
  now rewrite IH, with_queue_absorb.
Qed.

Lemma settle_pending v m : promise m = None -> promise (settle v m) = Some v.
Proof. intros H. unfold settle. now rewrite H. Qed.

Lemma with_queue_twice qs aw qs' aw' m :
  with_queue qs aw (with_queue qs' aw' m) = with_queue qs aw m.
Proof. reflexivity. Qed.

Section Network.
Variable outcome : Handle -> Settled Bundle.

(** More fuel than queries left is as good as any more. *)
Lemma processResults_fuel settled : forall f f' m,
  (List.length (queries m) < f)%nat -> (List.length (queries m) < f')%nat ->
  processResults outcome f settled m = processResults outcome f' settled m.
Proof.
  induction f as [|f IH]; intros f' m Hf Hf'; [lia|].
  destruct f' as [|f']; [lia|]. simpl.
  destruct (JS.pop (queries m)) as [[lastQuery rest]|] eqn:Hpop; [|reflexivity].
  apply pop_Some in Hpop. rewrite Hpop, length_app in Hf, Hf'. simpl in Hf, Hf'.
  destruct (has_settled settled lastQuery); [|reflexivity].
  destruct (queryFHIRResource (outcome lastQuery)) as [response|error]; [|reflexivity].
  apply IH; destruct (absorb_all_queue (results response) (with_queue rest None m))
    as (-> & _); simpl; lia.
Qed.

(** Stepping the state machine by one settlement is the same as running
    [processResults] afresh against the larger set of settled promises. *)
Lemma on_settle_replays h settled : forall f m,
  awaiting m = None -> (List.length (queries m) < f)%nat ->
  on_settle outcome h (settled, processResults outcome f settled m)
  = (h :: settled, processResults outcome f (h :: settled) m).
Proof.
  induction f as [|f IH]; intros m Haw Hf; [lia|].
  simpl processResults.
  destruct (JS.pop (queries m)) as [[lastQuery rest]|] eqn:Hpop.
  - apply pop_Some in Hpop. rewrite Hpop, length_app in Hf. simpl in Hf.
    unfold has_settled at 2. simpl existsb.
    fold (has_settled settled lastQuery).
    destruct (has_settled settled lastQuery) eqn:Hs.
    + rewrite orb_true_r.
      destruct (queryFHIRResource (outcome lastQuery)) as [response|error].
      * apply IH.
        -- now destruct (absorb_all_queue (results response) (with_queue rest None m))
             as (_ & -> & _).
        -- destruct (absorb_all_queue (results response) (with_queue rest None m))
             as (-> & _). simpl. lia.
      * unfold on_settle, settle. simpl. now destruct (promise m).
    + rewrite orb_false_r.
      destruct (Nat.eqb_spec lastQuery h) as [->|Hne].
      * unfold on_settle. simpl awaiting. cbv beta iota. rewrite Nat.eqb_refl.
        simpl queries. rewrite with_queue_twice.
        destruct (queryFHIRResource (outcome h)) as [response|error];
          [|reflexivity].
        f_equal.
        apply processResults_fuel;
          destruct (absorb_all_queue (results response) (with_queue rest None m))
            as (-> & _); unfold enough; simpl; try lia.
        destruct (absorb_all_queue (results response) (with_queue rest None m))
            as (-> & _). simpl. lia.
      * unfold on_settle. simpl awaiting. cbv beta iota.
        destruct (Nat.eqb_spec lastQuery h); [contradiction|reflexivity].
  - unfold on_settle, settle. destruct (promise m); simpl; now rewrite Haw.
Qed.

(** After any schedule the machine is where a fresh [processResults]
    would be with the promises settled so far. *)
Lemma run_replays n : forall schedule,
  run outcome n schedule
  = (rev schedule,
     processResults outcome (enough (launched n)) (rev schedule) (launched n)).
Proof.
  induction schedule as [|h schedule IH] using rev_ind; [reflexivity|].
  unfold run in *. rewrite fold_left_app. simpl fold_left. rewrite IH.
  rewrite rev_app_distr. simpl rev. simpl app.
  apply on_settle_replays; [reflexivity | unfold enough; lia].
Qed.

Lemma has_settled_In settled h : In h settled -> has_settled settled h = true.
Proof.
  intros H. unfold has_settled. apply existsb_exists.
  exists h. split; [assumption | apply Nat.eqb_refl].
Qed.

(** With every remaining query settled and fulfilled, [processResults]
    empties the queue from its END and resolves. *)
Lemma processResults_drains settled : forall qs f m,
  queries m = qs -> awaiting m = None -> (List.length qs < f)%nat ->
  (forall h, In h qs -> has_settled settled h = true) ->
  (forall h, In h qs -> exists b, outcome h = Fulfilled b) ->
  processResults outcome f settled m
  = settle (Fulfilled {| results := uniqueResults
                           (fold_left absorb (List.concat (map (taken outcome) (rev qs)))
                              (with_queue [] None m)) |})
           (fold_left absorb (List.concat (map (taken outcome) (rev qs))) (with_queue [] None m)).
Proof.
  induction qs as [|q qs IH] using rev_ind; intros f m Hq Haw Hf Hset Hok.
  - destruct f as [|f]; [simpl in Hf; lia|]. simpl. rewrite Hq. simpl.
    destruct m as [qs0 ur ui aw pr]. simpl in Hq, Haw. now subst.
  - destruct f as [|f]; [lia|]. rewrite length_app in Hf. simpl in Hf.
    simpl processResults. rewrite Hq, pop_snoc.
    rewrite (Hset q) by (apply in_or_app; right; now left).
    destruct (Hok q) as [b Hb]; [apply in_or_app; right; now left|].
    rewrite rev_app_distr. simpl rev. simpl app. simpl map. simpl List.concat.
    rewrite fold_left_app. unfold taken at 2 4. rewrite Hb. simpl queryFHIRResource.
    cbv iota. simpl results.
    rewrite IH.
    + now rewrite <- !with_queue_absorb_all, with_queue_twice.
    + now destruct (absorb_all_queue (match entry b with Some l => l | None => [] end)
                      (with_queue qs None m)) as (-> & _).
    + now destruct (absorb_all_queue (match entry b with Some l => l | None => [] end)
                      (with_queue qs None m)) as (_ & -> & _).
    + lia.
    + intros h Hh. apply Hset, in_or_app. now left.
    + intros h Hh. apply Hok, in_or_app. now left.
Qed.
(** The first failure met from the end of the queue rejects the promise,
    whether or not the queries before it have settled. *)
Lemma processResults_rejects settled q e : forall post pre f m,
  queries m = pre ++ q :: post -> promise m = None ->
  (List.length (queries m) < f)%nat ->
  (forall h, In h (q :: post) -> has_settled settled h = true) ->
  outcome q = Rejected e ->
  (forall h, In h post -> exists b, outcome h = Fulfilled b) ->
  promise (processResults outcome f settled m) = Some (Rejected e).
Proof.
  induction post as [|p post IH] using rev_ind; intros pre f m Hq Hpr Hf Hset Hq_e Hok;
    (destruct f as [|f]; [lia|]); simpl processResults.
  - rewrite Hq, pop_snoc.
    rewrite (Hset q) by now left. rewrite Hq_e. simpl queryFHIRResource. cbv iota.
    now apply settle_pending.
  - assert (Hq' : queries m = (pre ++ q :: post) ++ [p])
      by now rewrite Hq, <- app_assoc.
    rewrite Hq', pop_snoc.
    rewrite (Hset p) by (right; apply in_or_app; right; now left).
    destruct (Hok p) as [b Hb]; [apply in_or_app; right; now left|].
    rewrite Hb. simpl queryFHIRResource. cbv iota. simpl results.
    rewrite Hq', length_app in Hf. simpl in Hf.
    apply (IH pre).
    + now destruct (absorb_all_queue (match entry b with Some l => l | None => [] end)
                      (with_queue (pre ++ q :: post) None m)) as (-> & _).
    + now destruct (absorb_all_queue (match entry b with Some l => l | None => [] end)
                      (with_queue (pre ++ q :: post) None m)) as (_ & _ & ->).
    + destruct (absorb_all_queue (match entry b with Some l => l | None => [] end)
                  (with_queue (pre ++ q :: post) None m)) as (-> & _). simpl. lia.
    + intros h [<-|Hh]; apply Hset; [now left|]. right. apply in_or_app. now left.
    + exact Hq_e.
    + intros h Hh. apply Hok, in_or_app. now left.
Qed.
End Network.

Lemma nth_over_seq {A} (d : A) : forall l,
  map (fun h => nth h l d) (seq 0 (List.length l)) = l.
Proof.
  induction l as [|a l IH]; [reflexivity|].
  simpl. f_equal. rewrite <- seq_shift, map_map. exact IH.
Qed.

Lemma fold_absorb_concat : forall responses m,
  fold_left (fun m r => fold_left absorb r m) responses m
  = fold_left absorb (List.concat responses) m.
Proof.
  induction responses as [|r rs IH]; intros m; simpl; [reflexivity|].
  now rewrite fold_left_app, IH.
Qed.

(** Under a complete schedule of successful queries the returned promise
    resolves with what the reducer makes of the responses taken from the
    LAST request to the first. *)
Lemma merged_resolves queriesArguments bundles schedule :
  List.length bundles = List.length queriesArguments ->
  complete (List.length queriesArguments) schedule ->
  snd (mergedFHIRResourceQueries queriesArguments (respond bundles) schedule)
  = Some (Fulfilled {| results := reduce (rev (map entries bundles)) |}).
Proof.
  intros Hlen Hall. unfold mergedFHIRResourceQueries.
  rewrite run_replays. cbv beta iota delta [snd].
  rewrite (processResults_drains (respond bundles) (rev schedule)
             (seq 0 (List.length queriesArguments))).
  - rewrite settle_pending;
      [| exact (proj2 (proj2 (absorb_all_queue _ _)))].
    do 3 f_equal. unfold reduce. rewrite fold_absorb_concat.
    change (with_queue [] None (launched (List.length queriesArguments)))
      with (launched 0).
    do 3 f_equal. rewrite map_rev. f_equal.
    rewrite <- Hlen.
    transitivity (map entries (map (fun h => nth h bundles {| entry := None |})
                                   (seq 0 (List.length bundles)))).
    + rewrite map_map. reflexivity.
    + now rewrite nth_over_seq.
  - reflexivity.
  - reflexivity.
  - unfold enough. simpl. lia.
  - intros h Hh. apply has_settled_In. apply in_rev. rewrite rev_involutive.
    apply Hall. apply in_seq in Hh. lia.
  - intros h _. eexists. reflexivity.
Qed.

(** *** The reducer keeps first occurrences *)

Lemma seen_before e before :
  existsb (same_identifier e) before = true <-> In (identifier e) (identifiers before).
Proof.
  unfold identifiers. rewrite existsb_exists, in_map_iff. split.
  - intros (e' & Hin & E). apply String.eqb_eq in E. now exists e'.
  - intros (e' & E & Hin). exists e'. split; [assumption|].
    unfold same_identifier. rewrite E. apply String.eqb_refl.
Qed.

Lemma identifiers_snoc l e : identifiers (l ++ [e]) = identifiers l ++ [identifier e].
Proof. unfold identifiers. now rewrite map_app. Qed.

Lemma absorb_first_seen : forall stream before m,
  uniqueIds m = identifiers (uniqueResults m) ->
  (forall x, In x (uniqueIds m) <-> In x (identifiers before)) ->
  uniqueResults (fold_left absorb stream m)
  = uniqueResults m ++ first_seen_after before stream.
Proof.
  induction stream as [|e rest IH]; intros before m Hids Hsame; simpl.
  - now rewrite app_nil_r.
  - unfold absorb at 2. fold (identifier e).
    destruct (JS.includes (uniqueIds m) (identifier e)) eqn:Hinc.
    + apply includes_In in Hinc.
      assert (Hb : existsb (same_identifier e) before = true)
        by now apply seen_before, Hsame.
      rewrite Hb. apply IH; [assumption|].
      intros x. rewrite identifiers_snoc, in_app_iff, <- Hsame. simpl.
      split; [tauto|]. intros [H|[<-|[]]]; assumption.
    + apply includes_false in Hinc.
      assert (Hb : existsb (same_identifier e) before = false).
      { destruct (existsb (same_identifier e) before) eqn:Hb; [|reflexivity].
        apply seen_before, Hsame in Hb. contradiction. }
      rewrite Hb. rewrite (IH (before ++ [e])); simpl.
      * unfold JS.push. now rewrite <- app_assoc.
      * unfold JS.push. now rewrite identifiers_snoc, Hids.
      * intros x. unfold JS.push.
        rewrite identifiers_snoc, !in_app_iff, Hsame. reflexivity.
Qed.

(** The code's reducer and the specification's first-seen filter agree. *)
Lemma reduce_first_seen responses :
  reduce responses = first_seen (List.concat responses).
Proof.
  unfold reduce, first_seen. rewrite fold_absorb_concat.
  now rewrite (absorb_first_seen _ [] (launched 0)).
Qed.

Lemma first_seen_after_sound : forall stream before e,
  In e (first_seen_after before stream) ->
  In e stream /\ ~ In (identifier e) (identifiers before).
Proof.
  induction stream as [|a rest IH]; intros before e; simpl; [contradiction|].
  assert (Hrest : In e (first_seen_after (before ++ [a]) rest) ->
                  (a = e \/ In e rest) /\ ~ In (identifier e) (identifiers before)).
  { intros H. apply IH in H as [H1 H2]. split; [now right|].
    rewrite identifiers_snoc, in_app_iff in H2. tauto. }
  destruct (existsb (same_identifier a) before) eqn:Hb; [exact Hrest|].
  intros [<-|H]; [|now apply Hrest]. split; [now left|].
  intros Hin. apply seen_before in Hin. congruence.
Qed.

Lemma first_seen_after_NoDup : forall stream before,
  NoDup (identifiers (first_seen_after before stream)).
Proof.
  induction stream as [|a rest IH]; intros before; simpl; [constructor|].
  destruct (existsb (same_identifier a) before); [apply IH|].
  simpl. constructor; [|apply IH].
  intros Hin. apply in_map_iff in Hin as (e & E & Hin).
  apply first_seen_after_sound in Hin as [_ Hnot]. apply Hnot.
  rewrite identifiers_snoc, in_app_iff. right. left. now symmetry.
Qed.

Lemma first_seen_after_complete : forall stream before x,
  In x (identifiers stream) ->
  In x (identifiers before) \/ In x (identifiers (first_seen_after before stream)).
Proof.
  induction stream as [|a rest IH]; intros before x; simpl; [contradiction|].
  intros [<-|Hin].
  - destruct (existsb (same_identifier a) before) eqn:Hb.
    + left. now apply seen_before.
    + right. now left.
  - destruct (IH (before ++ [a]) x Hin) as [H|H].
    + rewrite identifiers_snoc, in_app_iff in H. destruct H as [H|[<-|[]]].
      * now left.
      * destruct (existsb (same_identifier a) before) eqn:Hb.
        -- left. now apply seen_before.
        -- right. now left.
    + right. destruct (existsb (same_identifier a) before); [assumption|now right].
Qed.

Lemma In_concat_rev {A} (x : A) (ll : list (list A)) :
  In x (List.concat (rev ll)) <-> In x (List.concat ll).
Proof.
  rewrite !in_concat. split; intros (l & Hl & Hx); exists l; split;
    try assumption; now apply in_rev in Hl || apply in_rev.
Qed.

(** C3. When every query of a call succeeds and has settled, in whatever
    order, [mergedFHIRResourceQueries] resolves with a list that holds every
    identifier of the responses exactly once, holds only entries of the
    responses, and is the first-seen selection of the responses read in the
    processing order of the code (the last request's entries first). *)
Theorem merged_results_unique_first_seen :
  forall queriesArguments bundles schedule,
    List.length bundles = List.length queriesArguments ->
    complete (List.length queriesArguments) schedule ->
    exists merged,
      snd (mergedFHIRResourceQueries queriesArguments (respond bundles) schedule)
      = Some (Fulfilled {| results := merged |})
      /\ merged = first_seen (List.concat (rev (map entries bundles)))
      /\ NoDup (identifiers merged)
      /\ (forall x, In x (identifiers (List.concat (map entries bundles))) ->
                    count_occ string_dec (identifiers merged) x = 1%nat)
      /\ (forall e, In e merged -> In e (List.concat (map entries bundles))).
Proof.
  intros queriesArguments bundles schedule Hlen Hall.
  exists (reduce (rev (map entries bundles))).
  split; [now apply merged_resolves|].
  rewrite reduce_first_seen. split; [reflexivity|].
  assert (Hnd : NoDup (identifiers (first_seen (List.concat (rev (map entries bundles))))))
    by apply first_seen_after_NoDup.
  split; [exact Hnd|]. split.
  - intros x Hx. apply NoDup_count_occ'; [exact Hnd|].
    unfold identifiers in Hx. apply in_map_iff in Hx as (e & E & Hin).
    apply In_concat_rev in Hin.
    destruct (first_seen_after_complete
                (List.concat (rev (map entries bundles))) [] x) as [[]|H].
    + unfold identifiers. apply in_map_iff. now exists e.
    + exact H.
  - intros e He. apply first_seen_after_sound in He as [He _].
    now apply In_concat_rev.
Qed.

Lemma merged_results_unique_first_seen_witness :
  exists merged,
    snd (mergedFHIRResourceQueries Sample.three_queries
           (respond Sample.three_bundles) [1; 2; 0]%nat)
    = Some (Fulfilled {| results := merged |})
    /\ merged = first_seen (List.concat (rev (map entries Sample.three_bundles)))
    /\ NoDup (identifiers merged)
    /\ (forall x, In x (identifiers (List.concat (map entries Sample.three_bundles))) ->
                  count_occ string_dec (identifiers merged) x = 1%nat)
    /\ (forall e, In e merged -> In e (List.concat (map entries Sample.three_bundles))).
Proof.
  apply (merged_results_unique_first_seen Sample.three_queries Sample.three_bundles
           [1; 2; 0]%nat).
  - reflexivity.
  - intros h Hh. simpl in *. lia.
Defined.

(** C4, as the code has it. The reducer consumes the responses in one fixed
    order whatever the order in which the network delivers them: from the
    LAST request given to the first ([queries.pop()]). *)
Theorem merged_consumes_last_request_first :
  forall queriesArguments bundles schedule schedule',
    List.length bundles = List.length queriesArguments ->
    complete (List.length queriesArguments) schedule ->
    complete (List.length queriesArguments) schedule' ->
    snd (mergedFHIRResourceQueries queriesArguments (respond bundles) schedule)
    = Some (Fulfilled {| results := reduce (rev (map entries bundles)) |})
    /\ snd (mergedFHIRResourceQueries queriesArguments (respond bundles) schedule')
       = snd (mergedFHIRResourceQueries queriesArguments (respond bundles) schedule).
Proof.
  intros queriesArguments bundles schedule schedule' Hlen H1 H2.
  rewrite !merged_resolves by assumption. now split.
Qed.

Lemma merged_consumes_last_request_first_witness :
  snd (mergedFHIRResourceQueries Sample.two_queries (respond Sample.two_bundles)
         [0; 1]%nat)
  = Some (Fulfilled {| results := reduce (rev (map entries Sample.two_bundles)) |})
  /\ snd (mergedFHIRResourceQueries Sample.two_queries (respond Sample.two_bundles)
           [1; 0]%nat)
     = snd (mergedFHIRResourceQueries Sample.two_queries (respond Sample.two_bundles)
              [0; 1]%nat).
Proof.
  apply (merged_consumes_last_request_first Sample.two_queries Sample.two_bundles
           [0; 1]%nat [1; 0]%nat).
  - reflexivity.
  - intros h Hh. simpl in *. lia.
  - intros h Hh. simpl in *. lia.
Defined.

(** C4 as stated fails: with two requests answered [first] and [second],
    the promise resolves with [second] before [first], not with what the
    reducer makes of the responses in request order. *)
Lemma merged_not_in_request_order :
  snd (mergedFHIRResourceQueries Sample.two_queries (respond Sample.two_bundles)
         [0; 1]%nat)
  = Some (Fulfilled {| results := [Sample.entry_of "second" "2";
                                   Sample.entry_of "first" "1"] |})
  /\ reduce (map entries Sample.two_bundles)
     = [Sample.entry_of "first" "1"; Sample.entry_of "second" "2"]
  /\ snd (mergedFHIRResourceQueries Sample.two_queries (respond Sample.two_bundles)
           [0; 1]%nat)
     <> Some (Fulfilled {| results := reduce (map entries Sample.two_bundles) |}).
Proof.
  split; [reflexivity|]. split; [reflexivity|]. vm_compute. discriminate.
Qed.

(** C10. With no query arguments nothing is sent and the returned promise
    is resolved with an empty list as soon as the call returns (the empty
    schedule) and stays so. *)
Theorem merged_empty_resolves_at_once :
  forall outcome schedule,
    mergedFHIRResourceQueries [] outcome schedule
    = ([], Some (Fulfilled {| results := [] |}))
    /\ mergedFHIRResourceQueries [] outcome []
       = ([], Some (Fulfilled {| results := [] |})).
Proof.
  intros outcome schedule. unfold mergedFHIRResourceQueries.
  rewrite !run_replays. split; reflexivity.
Qed.
(** X1. When a request fails and every request given after it succeeds, the
    returned promise is rejected with that request's error as soon as these
    have settled. *)
Theorem merged_rejects_with_last_failure :
  forall queriesArguments outcome schedule q e,
    (q < List.length queriesArguments)%nat ->
    outcome q = Rejected e ->
    (forall h, (q < h < List.length queriesArguments)%nat -> exists b, outcome h = Fulfilled b) ->
    (forall h, (q <= h < List.length queriesArguments)%nat -> In h schedule) ->
    snd (mergedFHIRResourceQueries queriesArguments outcome schedule) = Some (Rejected e).
Proof.
  intros queriesArguments outcome schedule q e Hq Hfail Hok Hall.
  unfold mergedFHIRResourceQueries. rewrite run_replays. cbv beta iota delta [snd].
  set (n := List.length queriesArguments) in *.
  apply (processResults_rejects outcome (rev schedule) q e
           (seq (S q) (n - S q)) (seq 0 q)).
  - simpl queries. replace n with (q + S (n - S q))%nat at 1 by lia.
    rewrite seq_app. reflexivity.
  - reflexivity.
  - unfold enough. lia.
  - intros h Hh. apply has_settled_In. apply in_rev. rewrite rev_involutive.
    apply Hall. destruct Hh as [<-|Hh]; [lia|]. apply in_seq in Hh. lia.
  - exact Hfail.
  - intros h Hh. apply Hok. apply in_seq in Hh. lia.
Qed.

Lemma merged_rejects_with_last_failure_witness :
  snd (mergedFHIRResourceQueries Sample.three_queries Sample.failing [2; 1]%nat)
  = Some (Rejected {| message := "500" |}).
Proof.
  apply (merged_rejects_with_last_failure Sample.three_queries Sample.failing [2; 1]%nat 1%nat).
  - simpl. lia.
  - reflexivity.
  - intros h Hh. simpl in Hh. assert (h = 2%nat) as -> by lia. now eexists.
  - intros h Hh. simpl in *. lia.
Defined.

(** X2. A Code System search for a value sends the three queries
    ([name:contains], [description:contains], [url]). Whichever of them
    return what, if the identifiers found in the three answers are exactly
    two different ones (as when two answers overlap on [sct] and the third
    brings [icd10]), the merged result has exactly two entries, one for each
    identifier, whatever the order of arrival. *)
Theorem code_system_search_end_to_end :
  forall value w bundles schedule x y,
    List.length bundles = 3%nat ->
    complete 3 schedule ->
    x <> y ->
    (forall i, In i (identifiers (List.concat (map entries bundles))) <-> i = x \/ i = y) ->
    map req_data (Search.apiQueryBuilder Search.CodeSystemSearch value w)
    = [ [("name:contains", PStr value)];
        [("description:contains", PStr value)];
        [("url", PStr value)] ]
    /\ Search.apiQueryBuilder Search.CodeSystemSearch value w
       = fst (mergedFHIRResourceQueries
                [ ("CodeSystem", [("name:contains", PStr value)]);
                  ("CodeSystem", [("description:contains", PStr value)]);
                  ("CodeSystem", [("url", PStr value)]) ]
                (respond bundles) schedule)
    /\ exists merged,
         snd (mergedFHIRResourceQueries
                [ ("CodeSystem", [("name:contains", PStr value)]);
                  ("CodeSystem", [("description:contains", PStr value)]);
                  ("CodeSystem", [("url", PStr value)]) ]
                (respond bundles) schedule)
         = Some (Fulfilled {| results := merged |})
         /\ List.length merged = 2%nat
         /\ Permutation (identifiers merged) [x; y].
Proof.
  intros value w bundles schedule x y Hlen Hall Hxy Hids.
  split; [reflexivity|]. split; [reflexivity|].
  exists (reduce (rev (map entries bundles))).
  split; [now apply merged_resolves|].
  assert (Hp : Permutation (identifiers (reduce (rev (map entries bundles)))) [x; y]).
  { rewrite reduce_first_seen. apply NoDup_Permutation.
    - apply first_seen_after_NoDup.
    - constructor; [simpl; intros [H|[]]; congruence|]. constructor; [simpl; tauto|constructor].
    - intros i. split.
      + intros Hi. unfold identifiers in Hi. apply in_map_iff in Hi as (e & <- & He).
        apply first_seen_after_sound in He as [He _].
        apply (proj1 (In_concat_rev _ _)) in He.
        assert (In (identifier e) (identifiers (List.concat (map entries bundles))))
          by (unfold identifiers; apply in_map; exact He).
        apply Hids in H. simpl. destruct H as [->| ->]; tauto.
      + intros Hi.
        assert (Hin : In i (identifiers (List.concat (rev (map entries bundles))))).
        { assert (H : In i (identifiers (List.concat (map entries bundles))))
            by (apply Hids; simpl in Hi; destruct Hi as [<-|[<-|[]]]; tauto).
          unfold identifiers in *. apply in_map_iff in H as (e & <- & He).
          apply in_map. exact (proj2 (In_concat_rev _ _) He). }
        destruct (first_seen_after_complete _ [] i Hin) as [[]|H]. exact H. }
  split; [|exact Hp].
  apply Permutation_length in Hp. unfold identifiers in Hp.
  now rewrite length_map in Hp.
Qed.

Lemma code_system_search_end_to_end_witness :
  map req_data (Search.apiQueryBuilder Search.CodeSystemSearch "snomed" Sample.loaded)
  = [ [("name:contains", PStr "snomed")];
      [("description:contains", PStr "snomed")];
      [("url", PStr "snomed")] ]
  /\ Search.apiQueryBuilder Search.CodeSystemSearch "snomed" Sample.loaded
     = fst (mergedFHIRResourceQueries
              [ ("CodeSystem", [("name:contains", PStr "snomed")]);
                ("CodeSystem", [("description:contains", PStr "snomed")]);
                ("CodeSystem", [("url", PStr "snomed")]) ]
              (respond Sample.exchanged_bundles) [0; 2; 1]%nat)
  /\ exists merged,
       snd (mergedFHIRResourceQueries
              [ ("CodeSystem", [("name:contains", PStr "snomed")]);
                ("CodeSystem", [("description:contains", PStr "snomed")]);
                ("CodeSystem", [("url", PStr "snomed")]) ]
              (respond Sample.exchanged_bundles) [0; 2; 1]%nat)
       = Some (Fulfilled {| results := merged |})
       /\ List.length merged = 2%nat
       /\ Permutation (identifiers merged) ["sct"; "icd10"].
Proof.
  apply (code_system_search_end_to_end "snomed" Sample.loaded Sample.exchanged_bundles
           [0; 2; 1]%nat "sct" "icd10").
  - reflexivity.
  - intros h Hh. simpl. lia.
  - discriminate.
  - intros i. simpl. split.
    + intros [<-|[<-|[<-|[]]]]; tauto.
    + intros [->| ->]; tauto.
Defined.
End MergedFacts.

(* ===================================================================== *)
(** ** Tokens, the gate, failures and pagination                          *)
(* ===================================================================== *)

Module SearchFacts.
Import Gateway Search Spec JSFacts.

(** *** What each handler leaves alone *)

Lemma reset_offset_frame s o w :
  latestSearchToken (context (reset_offset s o w)) = latestSearchToken (context w)
  /\ fields (reset_offset s o w) = fields w
  /\ panels (reset_offset s o w) = panels w
  /\ errorBox (reset_offset s o w) = errorBox w
  /\ sent (reset_offset s o w) = sent w.
Proof. destruct s; repeat split. Qed.

Lemma handleSearchField_frame s t w :
  context (handleSearchField s t w) = context w
  /\ fields (handleSearchField s t w) = fields w
  /\ errorBox (handleSearchField s t w) = errorBox w.
Proof. repeat split. Qed.

Lemma on_trigger_token s t w :
  latestSearchToken (context (on_trigger s t w)) = latestSearchToken (context w).
Proof.
  unfold on_trigger. destruct (handleSearchField_frame s t (reset_offset s 0 w)) as (-> & _).
  apply reset_offset_frame.
Qed.

Lemma onPageChange_token s t page w :
  latestSearchToken (context (onPageChange s t page w)) = latestSearchToken (context w).
Proof.
  unfold onPageChange. destruct (paging s (context w)) as [p|]; [|reflexivity].
  destruct (handleSearchField_frame s t (reset_offset s (count p * (page - 1)) w)) as (-> & _).
  apply reset_offset_frame.
Qed.

Lemma list_items_frame s page results w :
  context (list_items s page results w) = context w
  /\ fields (list_items s page results w) = fields w
  /\ errorBox (list_items s page results w) = errorBox w
  /\ sent (list_items s page results w) = sent w
  /\ scrolled (list_items s page results w) = scrolled w.
Proof. unfold list_items. now destruct (forallb resultItemBuilder results). Qed.

Lemma on_success_context s t r w : context (on_success s t r w) = context w.
Proof.
  unfold on_success. destruct (negb _); [reflexivity|].
  destruct (_ <? _)%nat; [|reflexivity].
  destruct (Response.offset r); [|now rewrite (proj1 (list_items_frame _ _ _ _))].
  destruct (getPagination _ _); [|reflexivity].
  now rewrite (proj1 (list_items_frame _ _ _ _)).
Qed.

Lemma on_success_sent s t r w : sent (on_success s t r w) = sent w.
Proof.
  unfold on_success. destruct (negb _); [reflexivity|].
  destruct (_ <? _)%nat; [|reflexivity].
  destruct (Response.offset r);
    [|now rewrite (proj1 (proj2 (proj2 (proj2 (list_items_frame _ _ _ _)))))].
  destruct (getPagination _ _); [|reflexivity].
  now rewrite (proj1 (proj2 (proj2 (proj2 (list_items_frame _ _ _ _))))).
Qed.

Lemma on_answer_frame s w :
  context (on_answer s w) = context w
  /\ fields (on_answer s w) = fields w
  /\ panels (on_answer s w) = panels w
  /\ errorBox (on_answer s w) = errorBox w
  /\ sent (on_answer s w) = sent w.
Proof. now destruct s. Qed.

Lemma on_query_success_context s t r w : context (on_query_success s t r w) = context w.
Proof.
  unfold on_query_success. rewrite on_success_context. apply on_answer_frame.
Qed.

(** A response whose token is not the latest changes nothing. *)
Lemma on_success_stale s t r w :
  isCurrent (context w) t = false -> on_success s t r w = w.
Proof. intros H. unfold on_success. now rewrite H. Qed.

Lemma isCurrent_latest c t : isCurrent c t = true <-> latestSearchToken c = Some t.
Proof.
  unfold isCurrent. destruct (latestSearchToken c) as [t'|].
  - rewrite Z.eqb_eq. split; congruence.
  - split; discriminate.
Qed.

(** The gate of [subscribe], read as one test. *)
Lemma subscribe_gate minLength callback value evt now w :
  subscribe minLength callback value evt now w
  = if negb (other_key evt)
       && (match minLength with None => 2 | Some m => m end
           <=? String.length (JS.trim value))%nat
    then callback now (mint now w)
    else w.
Proof.
  unfold subscribe. destruct (other_key evt); [reflexivity|]. simpl negb. simpl andb.
  destruct (Nat.ltb_spec (String.length (JS.trim value))
              (match minLength with None => 2 | Some m => m end)%nat) as [H|H].
  - apply Nat.leb_gt in H. now rewrite H.
  - apply Nat.leb_le in H. now rewrite H.
Qed.

Section Controller.
Variable JSON : JSONObject.

(** Only an event that mints a token changes [latestSearchToken], and it
    changes it for every surface at once. *)
Lemma step_token e w :
  latestSearchToken (context (step JSON e w))
  = match minted e w with
    | Some st => Some (snd st)
    | None => latestSearchToken (context w)
    end.
Proof.
  destruct e as [s v|s evt now|s t page|s t r|s t err]; simpl.
  - reflexivity.
  - unfold on_field_event. rewrite subscribe_gate.
    destruct (other_key evt); [reflexivity|]. simpl negb. simpl andb.
    destruct (Nat.ltb_spec
                (String.length (JS.trim (get s (fields w))))
                (match minLength_of s with None => 2 | Some m => m end)%nat) as [H|H].
    + apply Nat.leb_gt in H. now rewrite H.
    + apply Nat.leb_le in H. rewrite H. now rewrite on_trigger_token.
  - apply onPageChange_token.
  - now rewrite on_query_success_context.
  - reflexivity.
Qed.

Lemma latest_overall_after : forall trace w,
  latestSearchToken (context (run JSON trace w))
  = latest_overall (latestSearchToken (context w)) (issued JSON trace w).
Proof.
  induction trace as [|e trace IH]; intros w; [reflexivity|].
  unfold run in *. simpl fold_left. rewrite IH. simpl issued.
  rewrite step_token. now destruct (minted e w) as [[s t]|].
Qed.

(** C1, as the code has it. There is one current token for the whole
    page: after any trace of events a response is accepted (it passes
    the guard of the success callback) iff its token is the latest one
    issued on ANY surface; a token minted for one surface supersedes the
    tokens of all the others. *)
Theorem accepted_iff_latest_token_overall :
  forall trace w e tok,
    (isCurrent (context (run JSON trace w)) tok = true
     <-> latest_overall (latestSearchToken (context w)) (issued JSON trace w) = Some tok)
    /\ isCurrent (context (run JSON (trace ++ [e]) w)) tok
       = match minted e (run JSON trace w) with
         | Some st => (snd st =? tok)%Z
         | None => isCurrent (context (run JSON trace w)) tok
         end.
Proof.
  intros trace w e tok. split.
  - rewrite isCurrent_latest. now rewrite latest_overall_after.
  - unfold run. rewrite fold_left_app. simpl fold_left.
    fold (run JSON trace w). unfold isCurrent. rewrite step_token.
    now destruct (minted e (run JSON trace w)).
Qed.

(** C8. The error callback never looks at the token: whatever the world
    (whatever token is the latest) and whatever the token of the failed
    search, the error box is shown and holds the message pretty-printed
    when it parses as JSON and verbatim when it does not. *)
Theorem failure_is_surfaced_regardless_of_token :
  forall s tok tok' err w trace,
    errorBox (on_failure JSON s tok err w)
    = {| html := match JSON.(parse) (message err) with
                 | Some jsonError => JSON.(stringify) jsonError
                 | None => message err
                 end;
         shown := true |}
    /\ on_failure JSON s tok err w = on_failure JSON s tok' err w
    /\ errorBox (run JSON (trace ++ [QueryFails s tok err]) w)
       = errorBox (on_failure JSON s tok err w).
Proof.
  intros s tok tok' err w trace. split; [reflexivity|]. split; [reflexivity|].
  unfold run. rewrite fold_left_app. reflexivity.
Qed.

(** C9, as the code has it. A failed search REPLACES what the results
    container of its surface showed by a fixed error notice, shows the
    container and pauses its loading icon, and shows the error box.
    Everything else stays: the other containers, the fields, the context
    (token and offsets), and the list of queries sent (no retry). *)
Theorem failure_overwrites_results_with_notice :
  forall s tok err w,
    panels (on_failure JSON s tok err w)
    = set s {| content := ErrorNotice; visible := true;
               rotation := rotation (get s (panels w)); paused := true |}
          (panels w)
    /\ content (get s (panels (on_failure JSON s tok err w))) = ErrorNotice
    /\ shown (errorBox (on_failure JSON s tok err w)) = true
    /\ context (on_failure JSON s tok err w) = context w
    /\ fields (on_failure JSON s tok err w) = fields w
    /\ sent (on_failure JSON s tok err w) = sent w.
Proof.
  intros s tok err w. repeat split. now destruct s.
Qed.
End Controller.

(** C1 as stated fails: after a search on the Code System field (token
    1000) and then one on the Value Set field (token 2000), 1000 is still
    the latest token issued for the Code System surface, yet its response
    is not accepted. *)
Lemma latest_on_surface_is_not_accepted :
  latest_on CodeSystemSearch (issued Sample.strict_JSON Sample.two_surfaces Sample.loaded)
  = Some 1000%Z
  /\ isCurrent (context (run Sample.strict_JSON Sample.two_surfaces Sample.loaded)) 1000
     = false
  /\ on_success CodeSystemSearch 1000
       (merged_response {| results := [Sample.entry_of "sct" "SNOMED CT"] |})
       (run Sample.strict_JSON Sample.two_surfaces Sample.loaded)
     = run Sample.strict_JSON Sample.two_surfaces Sample.loaded.
Proof. repeat split. Qed.

(** C2, as the code has it. With [T2] the latest token and its result
    applied, the success callback of [handleSearchField] drops the late
    answer of the older search [T1]: it changes nothing at all. The whole
    arrival of that answer, the callback of the query builder included, is a
    no-op on the Code System, Value Set and Concept surfaces; on the ECL
    surface it leaves everything as [T2]'s result left it except that the
    builder's callback has started one more scroll to the ECL results
    title. *)
Theorem stale_success_is_a_no_op :
  forall s T1 T2 r1 r2 w,
    (T1 < T2)%Z ->
    latestSearchToken (context w) = Some T2 ->
    on_success s T1 r1 (on_success s T2 r2 w) = on_success s T2 r2 w
    /\ on_query_success s T1 r1 (on_query_success s T2 r2 w)
       = (if Surface_eqb s ECLSearch
          then with_scrolled
                 (scrolled (on_query_success s T2 r2 w) ++ ["ecl-filters-title"])
                 (on_query_success s T2 r2 w)
          else on_query_success s T2 r2 w).
Proof.
  intros s T1 T2 r1 r2 w Hlt Hlatest.
  assert (Hne : (T2 =? T1)%Z = false) by (apply Z.eqb_neq; lia).
  split.
  - apply on_success_stale. unfold isCurrent. now rewrite on_success_context, Hlatest.
  - unfold on_query_success at 1. rewrite on_success_stale.
    + now destruct s.
    + unfold isCurrent. rewrite (proj1 (on_answer_frame s _)).
      now rewrite on_query_success_context, Hlatest.
Qed.

Lemma stale_success_is_a_no_op_witness :
  on_success ConceptSearch 5 Sample.mid_page
    (on_success ConceptSearch 7 Sample.third_page Sample.showing)
  = on_success ConceptSearch 7 Sample.third_page Sample.showing
  /\ on_query_success ConceptSearch 5 Sample.mid_page
       (on_query_success ConceptSearch 7 Sample.third_page Sample.showing)
     = (if Surface_eqb ConceptSearch ECLSearch
        then with_scrolled
               (scrolled (on_query_success ConceptSearch 7 Sample.third_page Sample.showing)
                ++ ["ecl-filters-title"])
               (on_query_success ConceptSearch 7 Sample.third_page Sample.showing)
        else on_query_success ConceptSearch 7 Sample.third_page Sample.showing).
Proof.
  apply (stale_success_is_a_no_op ConceptSearch 5 7 Sample.mid_page Sample.third_page
           Sample.showing); [lia | reflexivity].
Defined.

(** C2 as stated fails on the ECL surface: the late answer of the search of
    token 5, arriving after the result of token 7 was applied, is not a
    no-op, it starts a second scroll animation. *)
Lemma stale_ecl_answer_scrolls :
  scrolled (on_query_success ECLSearch 7 Sample.third_page Sample.showing)
  = ["ecl-filters-title"]
  /\ scrolled (on_query_success ECLSearch 5 Sample.mid_page
                 (on_query_success ECLSearch 7 Sample.third_page Sample.showing))
     = ["ecl-filters-title"; "ecl-filters-title"]
  /\ on_query_success ECLSearch 5 Sample.mid_page
       (on_query_success ECLSearch 7 Sample.third_page Sample.showing)
     <> on_query_success ECLSearch 7 Sample.third_page Sample.showing.
Proof.
  split; [reflexivity|]. split; [reflexivity|].
  intros H. apply (f_equal scrolled) in H. vm_compute in H. discriminate.
Qed.

(** C9 as stated fails: the concept container listed a result; after the
    failure it holds the error notice instead. *)
Lemma failure_replaces_displayed_results :
  content (get ConceptSearch (panels Sample.showing))
  = Listing None [ConceptItem (Sample.concept_of "55342001" "Neoplastic disease")]
  /\ content (get ConceptSearch
                (panels (on_failure Sample.strict_JSON ConceptSearch 7
                           {| message := "Cannot read properties of undefined" |}
                           Sample.showing)))
     = ErrorNotice
  /\ panels (on_failure Sample.strict_JSON ConceptSearch 7
               {| message := "Cannot read properties of undefined" |} Sample.showing)
     <> panels Sample.showing.
Proof. split; [reflexivity|]. split; [reflexivity|]. discriminate. Qed.

(** *** The minimum-length gate *)

(** C7. On a trigger (a change, or a keypress of Enter) the subscription
    calls the search callback with a freshly minted token iff the trimmed
    value of the field has at least [minLength] characters, 2 by default
    and 1 for the ECL field; below the threshold nothing at all happens
    (no token, no query). When it fires, the token is the clock reading
    and exactly one query goes out under it. *)
Theorem subscription_fires_iff_long_enough :
  forall minLength callback value s evt now w,
    other_key evt = false ->
    subscribe minLength callback value evt now w
    = (if (match minLength with None => 2 | Some m => m end
           <=? String.length (JS.trim value))%nat
       then callback now (mint now w)
       else w)
    /\ on_field_event s evt now w
       = (if (threshold s <=? String.length (JS.trim (get s (fields w))))%nat
          then on_trigger s now (mint now w)
          else w)
    /\ latestSearchToken (context (on_trigger s now (mint now w))) = Some now
    /\ exists rqs,
         sent (on_trigger s now (mint now w))
         = sent w ++ [ {| surface := s; searchToken := now; requests := rqs |} ].
Proof.
  intros minLength callback value s evt now w Hevt.
  split; [| split; [| split]].
  - rewrite subscribe_gate, Hevt. reflexivity.
  - unfold on_field_event. rewrite subscribe_gate, Hevt. now destruct s.
  - now rewrite on_trigger_token.
  - eexists. unfold on_trigger, handleSearchField. simpl sent.
    destruct (reset_offset_frame s 0 (mint now w)) as (_ & _ & _ & _ & ->).
    reflexivity.
Qed.

Lemma subscription_fires_iff_long_enough_witness :
  subscribe (Some 1%nat) (on_trigger ECLSearch) "*" Change 42 Sample.starred
  = (if (1 <=? String.length (JS.trim "*"))%nat
     then on_trigger ECLSearch 42 (mint 42 Sample.starred)
     else Sample.starred)
  /\ on_field_event ECLSearch Change 42 Sample.starred
     = (if (threshold ECLSearch
            <=? String.length (JS.trim (get ECLSearch (fields Sample.starred))))%nat
        then on_trigger ECLSearch 42 (mint 42 Sample.starred)
        else Sample.starred)
  /\ latestSearchToken (context (on_trigger ECLSearch 42 (mint 42 Sample.starred)))
     = Some 42%Z
  /\ exists rqs,
       sent (on_trigger ECLSearch 42 (mint 42 Sample.starred))
       = sent Sample.starred
         ++ [ {| surface := ECLSearch; searchToken := 42; requests := rqs |} ].
Proof.
  apply (subscription_fires_iff_long_enough (Some 1%nat) (on_trigger ECLSearch) "*"
           ECLSearch Change 42 Sample.starred).
  reflexivity.
Defined.

(** *** Page navigation and the page descriptor *)

Lemma get_set {A} s (x : A) p : get s (set s x p) = x.
Proof. now destruct s. Qed.

Lemma onPageChange_offset s p tok page w :
  paging s (context w) = Some p ->
  paging s (context (onPageChange s tok page w))
  = Some (with_offset (count p * (page - 1)) p)
  /\ exists rq,
       sent (onPageChange s tok page w)
       = sent w ++ [ {| surface := s; searchToken := tok; requests := [rq] |} ]
       /\ In ("offset", PNum (count p * (page - 1))) (req_data rq)
       /\ In ("count", PNum (count p)) (req_data rq).
Proof.
  intros Hp. unfold onPageChange. rewrite Hp.
  destruct s; try discriminate; injection Hp as <-; (split; [reflexivity|]);
    eexists; (split; [reflexivity|]); simpl; tauto.
Qed.

Lemma get_list_items s page results w :
  get s (panels (list_items s page results w))
  = if forallb resultItemBuilder results
    then {| content := Listing page results; visible := true;
            rotation := rotation (get s (panels w)); paused := true |}
    else {| content := Unfinished page; visible := visible (get s (panels w));
            rotation := rotation (get s (panels w)); paused := paused (get s (panels w)) |}.
Proof.
  unfold list_items. destruct (forallb resultItemBuilder results); simpl; apply get_set.
Qed.

(** C5, as the code has it. Navigating to page [page] searches again under
    the same token with offset [count * (page - 1)]. For a current,
    non-empty response with an offset, a total and a positive page size, the
    widget is built for the page count [ceil (total / pageSize)] and the
    current page [ceil (offset / pageSize) + 1], whether or not the items
    can then be rendered; on an offset that is a
    multiple of the page size, as every offset the controller asks for is,
    this is [floor (offset / pageSize) + 1], the page navigated to. *)
Theorem pagination_arithmetic :
  forall s p tok page w response off tot ps,
    paging s (context w) = Some p ->
    isCurrent (context w) tok = true ->
    Response.results response <> [] ->
    Response.offset response = Some off ->
    Response.total response = Some tot ->
    Response.pageSize response = Some ps ->
    (0 < ps)%Z ->
    (paging s (context (onPageChange s tok page w))
     = Some (with_offset (count p * (page - 1)) p)
     /\ latestSearchToken (context (onPageChange s tok page w))
        = latestSearchToken (context w)
     /\ exists rq,
          sent (onPageChange s tok page w)
          = sent w ++ [ {| surface := s; searchToken := tok; requests := [rq] |} ]
          /\ In ("offset", PNum (count p * (page - 1))) (req_data rq)
          /\ In ("count", PNum (count p)) (req_data rq))
    /\ (exists cur cnt,
          is_ceiling (cur - 1) off ps
          /\ is_ceiling cnt tot ps
          /\ content (get s (panels (on_success s tok response w)))
             = match getPagination (Some cur) (Some cnt) with
               | Some pg =>
                   if forallb resultItemBuilder (Response.results response)
                   then
                     Listing (Some {| from := off + 1;
                                      to := off + Z.of_nat (List.length (Response.results response));
                                      of_total := Some tot;
                                      pagination := pg |})
                             (Response.results response)
                   else
                     Unfinished (Some {| from := off + 1;
                                         to := off + Z.of_nat (List.length (Response.results response));
                                         of_total := Some tot;
                                         pagination := pg |})
               | None => EmptyPageInfo
               end)
    /\ current_page (ps * (page - 1)) (Some ps) = Some page
    /\ (page = (ps * (page - 1)) / ps + 1)%Z.
Proof.
  intros s p tok page w response off tot ps Hp Hcur Hres Hoff Htot Hps Hpos.
  split; [| split; [| split]].
  - destruct (onPageChange_offset s p tok page w Hp) as [H1 H2].
    split; [exact H1|]. split; [apply onPageChange_token | exact H2].
  - destruct (ceil_div_is_ceiling off ps Hpos) as (q & Hq & Hqc).
    destruct (ceil_div_is_ceiling tot ps Hpos) as (c & Hc & Hcc).
    exists (q + 1)%Z, c. replace (q + 1 - 1)%Z with q by lia.
    split; [exact Hqc|]. split; [exact Hcc|].
    unfold on_success. rewrite Hcur. simpl negb. cbv iota.
    destruct (Response.results response) as [|r0 rs] eqn:Hr; [congruence|].
    change (0 <? List.length (r0 :: rs))%nat with true. cbv iota. rewrite Hoff, Htot, Hps.
    unfold current_page, page_count. rewrite Hq, Hc. simpl option_map.
    destruct (getPagination (Some (q + 1)%Z) (Some c));
      [| simpl; now rewrite get_set].
    rewrite get_list_items.
    now destruct (forallb resultItemBuilder (r0 :: rs)).
  - unfold current_page. rewrite ceil_div_exact by assumption. simpl. f_equal.
    replace (ps * (page - 1))%Z with ((page - 1) * ps)%Z by lia.
    rewrite Z.div_mul by lia. lia.
  - replace (ps * (page - 1))%Z with ((page - 1) * ps)%Z by lia.
    rewrite Z.div_mul by lia. lia.
Qed.

Lemma pagination_arithmetic_witness :
  (paging ConceptSearch (context (onPageChange ConceptSearch 7 3 Sample.showing))
   = Some (with_offset (count initial_paging * (3 - 1)) initial_paging)
   /\ latestSearchToken (context (onPageChange ConceptSearch 7 3 Sample.showing))
      = latestSearchToken (context Sample.showing)
   /\ exists rq,
        sent (onPageChange ConceptSearch 7 3 Sample.showing)
        = sent Sample.showing
          ++ [ {| surface := ConceptSearch; searchToken := 7; requests := [rq] |} ]
        /\ In ("offset", PNum (count initial_paging * (3 - 1))) (req_data rq)
        /\ In ("count", PNum (count initial_paging)) (req_data rq))
  /\ (exists cur cnt,
        is_ceiling (cur - 1) 200 100
        /\ is_ceiling cnt 250 100
        /\ content (get ConceptSearch
                      (panels (on_success ConceptSearch 7 Sample.third_page Sample.showing)))
           = match getPagination (Some cur) (Some cnt) with
             | Some pg =>
                 if forallb resultItemBuilder (Response.results Sample.third_page)
                 then
                   Listing (Some {| from := 200 + 1;
                                    to := 200 + Z.of_nat (List.length (Response.results Sample.third_page));
                                    of_total := Some 250%Z;
                                    pagination := pg |})
                           (Response.results Sample.third_page)
                 else
                   Unfinished (Some {| from := 200 + 1;
                                       to := 200 + Z.of_nat (List.length (Response.results Sample.third_page));
                                       of_total := Some 250%Z;
                                       pagination := pg |})
             | None => EmptyPageInfo
             end)
  /\ current_page (100 * (3 - 1)) (Some 100%Z) = Some 3%Z
  /\ (3 = (100 * (3 - 1)) / 100 + 1)%Z.
Proof.
  apply (pagination_arithmetic ConceptSearch initial_paging 7 3 Sample.showing
           Sample.third_page 200 250 100);
    try reflexivity; discriminate.
Defined.

(** C5 as stated fails on the current page: for a response that starts at
    offset 150 with page size 100 the widget marks page 3, while
    [floor (150 / 100) + 1] is 2. (The page count, 3, is as stated.) *)
Lemma current_page_rounds_up :
  shown_pagination
    (get ConceptSearch (panels (on_success ConceptSearch 7 Sample.mid_page Sample.showing)))
  = Some {| current := 3; pages := 3 |}
  /\ (150 / 100 + 1 = 2)%Z
  /\ current_page 150 (Some 100%Z) <> Some (150 / 100 + 1)%Z.
Proof. split; [reflexivity|]. split; [reflexivity|]. discriminate. Qed.
End SearchFacts.

(* ===================================================================== *)
(** ** The ECL string                                                     *)
(* ===================================================================== *)

Module ECLFacts.
Import Search ECL Spec JSFacts.

Lemma each_wrapper_emits shortECL longECL filter :
  each_wrapper (shortECL, longECL) filter
  = (shortECL ++ emitted op [filter], longECL ++ emitted opLong [filter]).
Proof.
  unfold each_wrapper, emitted, emits, JS.push. simpl flat_map.
  destruct (string_dec (opLong filter) "ANY") as [E|E].
  - rewrite E. simpl. reflexivity.
  - apply String.eqb_neq in E. rewrite E.
    destruct (string_dec (code filter) "") as [Ec|Ec].
    + rewrite Ec. simpl. now rewrite !app_nil_r.
    + apply truthy_nonempty in Ec. rewrite Ec.
      destruct (string_dec (label filter) "") as [El|El].
      * rewrite El. reflexivity.
      * apply truthy_nonempty in El. rewrite El. reflexivity.
Qed.

Lemma emitted_app operator l l' :
  emitted operator (l ++ l') = emitted operator l ++ emitted operator l'.
Proof. unfold emitted. apply flat_map_app. Qed.

Lemma rebuild_from : forall wrappers shortECL longECL,
  fold_left each_wrapper wrappers (shortECL, longECL)
  = (shortECL ++ emitted op wrappers, longECL ++ emitted opLong wrappers).
Proof.
  induction wrappers as [|filter wrappers IH]; intros shortECL longECL;
    cbn [fold_left].
  - unfold emitted. simpl. now rewrite !app_nil_r.
  - rewrite each_wrapper_emits, IH, <- !app_assoc.
    change (filter :: wrappers) with ([filter] ++ wrappers).
    now rewrite !emitted_app.
Qed.

Lemma on_field_event_fields s evt now w : fields (on_field_event s evt now w) = fields w.
Proof.
  unfold on_field_event, subscribe.
  destruct (other_key evt); [reflexivity|].
  destruct (_ <? _)%nat; [reflexivity|].
  unfold on_trigger. simpl. now destruct s.
Qed.

(** C6. The loop over the filter rows leaves in [shortECL] and [longECL]
    exactly what the rows emit in order, with the short and the long
    operator: an ANY row its bare operator, a row with no code nothing, the
    others the operator and the code, followed by the label between bars
    when it has one. The ECL search field receives the short strings joined
    with a comma and a space. *)
Theorem ecl_rendering :
  forall wrappers now w,
    rebuild wrappers = (emitted op wrappers, emitted opLong wrappers)
    /\ get ECLSearch (fields (updateSearchString None wrappers now w))
       = JS.join ", " (emitted op wrappers)
    /\ JS.join ", " (fst (rebuild [Sample.neoplastic]))
       = "<! 55342001|Neoplastic disease|"
    /\ JS.join ", " (fst (rebuild [ {| op := "*"; opLong := "ANY";
                                       code := "55342001"; label := "ignored" |} ]))
       = "*"
    /\ fst (rebuild [ Sample.neoplastic;
                      {| op := "<"; opLong := "descendantOf"; code := "";
                         label := "no code" |} ])
       = ["<! 55342001|Neoplastic disease|"].
Proof.
  intros wrappers now w.
  assert (H : rebuild wrappers = (emitted op wrappers, emitted opLong wrappers))
    by (unfold rebuild; now rewrite rebuild_from).
  split; [exact H|]. split; [| repeat split].
  unfold updateSearchString. rewrite on_field_event_fields, H. simpl fst.
  reflexivity.
Qed.
End ECLFacts.

(* ===================================================================== *)
(** ** More on the merged query *)
(* ===================================================================== *)

Module PendingFacts.
Import Gateway Merged Spec JSFacts MergedFacts.

Section Network.
Variable outcome : Handle -> Settled Bundle.

(** While a queued query is pending and none fails, the promise stays
    pending. *)
Lemma processResults_waits settled h : forall qs f m,
  queries m = qs -> promise m = None -> In h qs ->
  has_settled settled h = false ->
  (forall q, exists b, outcome q = Fulfilled b) ->
  promise (processResults outcome f settled m) = None.
Proof.
  induction qs as [|q qs IH] using rev_ind; intros f m Hq Hpr Hin Hh Hok;
    [contradiction|].
  destruct f as [|f]; [exact Hpr|]. simpl processResults. rewrite Hq, pop_snoc.
  destruct (has_settled settled q) eqn:Hs.
  - destruct (Hok q) as [b Hb]. rewrite Hb. simpl queryFHIRResource. cbv iota.
    apply IH.
    + now destruct (absorb_all_queue (results {| results := match entry b with
                                                              | Some l => l
                                                              | None => []
                                                              end |})
                      (with_queue qs None m)) as (-> & _).
    + now destruct (absorb_all_queue (results {| results := match entry b with
                                                              | Some l => l
                                                              | None => []
                                                              end |})
                      (with_queue qs None m)) as (_ & _ & ->).
    + apply in_app_or in Hin as [Hin|[<-|[]]]; [assumption|congruence].
    + exact Hh.
    + exact Hok.
  - exact Hpr.
Qed.
End Network.

Lemma has_settled_not_In settled h : ~ In h settled -> has_settled settled h = false.
Proof.
  intros Hn. unfold has_settled. destruct (existsb (Nat.eqb h) settled) eqn:E; [|reflexivity].
  apply existsb_exists in E as (x & Hx & Hxe). apply Nat.eqb_eq in Hxe. now subst.
Qed.

(** X3. No partial results: while one of the queries has not settled (and
    none has failed) the returned promise is still pending, whatever the
    others returned. *)
Theorem merged_pending_until_all_settle :
  forall queriesArguments bundles schedule h,
    (h < List.length queriesArguments)%nat ->
    ~ In h schedule ->
    snd (mergedFHIRResourceQueries queriesArguments (respond bundles) schedule) = None.
Proof.
  intros queriesArguments bundles schedule h Hh Hnot.
  unfold mergedFHIRResourceQueries. rewrite run_replays. cbv beta iota delta [snd].
  apply (processResults_waits (respond bundles) (rev schedule) h
           (seq 0 (List.length queriesArguments))).
  - reflexivity.
  - reflexivity.
  - apply in_seq. lia.
  - apply has_settled_not_In. now rewrite <- in_rev.
  - intros q. now eexists.
Qed.

Lemma merged_pending_until_all_settle_witness :
  snd (mergedFHIRResourceQueries Sample.three_queries (respond Sample.three_bundles)
         [2; 0]%nat) = None.
Proof.
  apply (merged_pending_until_all_settle Sample.three_queries Sample.three_bundles
           [2; 0]%nat 1%nat).
  - simpl. lia.
  - simpl. lia.
Defined.

Lemma concat_all_nil {A} (ll : list (list A)) :
  (forall l, In l ll -> l = []) -> List.concat ll = [].
Proof.
  induction ll as [|l ll IH]; intros H; [reflexivity|]. simpl.
  rewrite (H l) by now left. apply IH. intros l' Hl'. apply H. now right.
Qed.

(** X4. Bodies without [entry] (or with an empty one) are no error: when
    every query answers so, the merged promise resolves with no result, and
    the search controller, if the search is still current, shows "No
    results", shows the container, pauses the icon and hides the error box. *)
Theorem absent_entries_show_no_results :
  forall queriesArguments bundles schedule s tok w,
    List.length bundles = List.length queriesArguments ->
    complete (List.length queriesArguments) schedule ->
    (forall b, In b bundles -> entries b = []) ->
    Search.isCurrent (Search.context w) tok = true ->
    snd (mergedFHIRResourceQueries queriesArguments (respond bundles) schedule)
    = Some (Fulfilled {| results := [] |})
    /\ Search.get s (Search.panels
                       (Search.on_success s tok (Search.merged_response {| results := [] |}) w))
       = {| Search.content := Search.NoResults; Search.visible := true;
            Search.rotation := Search.rotation (Search.get s (Search.panels w));
            Search.paused := true |}
    /\ Search.shown (Search.errorBox
                       (Search.on_success s tok (Search.merged_response {| results := [] |}) w))
       = false.
Proof.
  intros queriesArguments bundles schedule s tok w Hlen Hall Hnone Hcur.
  split; [| split].
  - rewrite merged_resolves by assumption. rewrite reduce_first_seen.
    rewrite concat_all_nil; [reflexivity|].
    intros l Hl. apply in_rev in Hl. apply in_map_iff in Hl as (b & <- & Hb).
    now apply Hnone.
  - unfold Search.on_success. rewrite Hcur. simpl. now destruct s.
  - unfold Search.on_success. rewrite Hcur. reflexivity.
Qed.

Lemma absent_entries_show_no_results_witness :
  snd (mergedFHIRResourceQueries Sample.two_queries
         (respond [ {| entry := None |}; {| entry := Some [] |} ]) [1; 0]%nat)
  = Some (Fulfilled {| results := [] |})
  /\ Search.get Search.ValueSetSearch
       (Search.panels
          (Search.on_success Search.ValueSetSearch 7
             (Search.merged_response {| results := [] |}) Sample.showing))
     = {| Search.content := Search.NoResults; Search.visible := true;
          Search.rotation :=
            Search.rotation (Search.get Search.ValueSetSearch (Search.panels Sample.showing));
          Search.paused := true |}
  /\ Search.shown
       (Search.errorBox
          (Search.on_success Search.ValueSetSearch 7
             (Search.merged_response {| results := [] |}) Sample.showing))
     = false.
Proof.
  apply (absent_entries_show_no_results Sample.two_queries
           [ {| entry := None |}; {| entry := Some [] |} ] [1; 0]%nat
           Search.ValueSetSearch 7 Sample.showing).
  - reflexivity.
  - intros h Hh. simpl in *. lia.
  - intros b [<-|[<-|[]]]; reflexivity.
  - reflexivity.
Defined.
End PendingFacts.

(* ===================================================================== *)
(** ** More on rendering a response *)
(* ===================================================================== *)

Module RenderingFacts.
Import Gateway Search Spec JSFacts SearchFacts Pager.

Lemma current_page_aligned ps k :
  (0 < ps)%Z -> current_page (ps * k) (Some ps) = Some (k + 1)%Z.
Proof.
  intros Hps. unfold current_page. rewrite ceil_div_exact by assumption. simpl.
  replace (ps * k)%Z with (k * ps)%Z by lia. now rewrite Z.div_mul by lia.
Qed.

Lemma getPagination_in_range c t :
  (1 <= c <= t)%Z -> getPagination (Some c) (Some t) = Some {| current := c; pages := t |}.
Proof.
  intros H. unfold getPagination.
  destruct (Z.leb_spec 1 c); [|lia]. destruct (Z.leb_spec c t); [|lia]. reflexivity.
Qed.

Lemma getPagination_Some c t pg :
  getPagination (Some c) (Some t) = Some pg ->
  current pg = c /\ pages pg = t /\ (1 <= c <= t)%Z.
Proof.
  unfold getPagination.
  destruct (Z.leb_spec 1 c); destruct (Z.leb_spec c t); simpl; try discriminate.
  intros [= <-]. simpl. lia.
Qed.

(** X5. A current, non-empty response that has an offset but no total makes
    [getPagination] throw: the container is left cleared with an empty
    page-info block, it is not shown, and the loading icon is not paused, so
    after a search it keeps spinning. The error box was hidden before. *)
Theorem missing_total_breaks_off_rendering :
  forall s tok response off w,
    isCurrent (context w) tok = true ->
    Response.results response <> [] ->
    Response.offset response = Some off ->
    Response.total response = None ->
    get s (panels (on_success s tok response w))
    = {| content := EmptyPageInfo; visible := visible (get s (panels w));
         rotation := rotation (get s (panels w));
         paused := paused (get s (panels w)) |}
    /\ shown (errorBox (on_success s tok response w)) = false
    /\ rotation (get s (panels (on_success s tok response (handleSearchField s tok w))))
       = true
    /\ paused (get s (panels (on_success s tok response (handleSearchField s tok w))))
       = false.
Proof.
  intros s tok response off w Hcur Hres Hoff Htot.
  assert (Hgen : forall w', isCurrent (context w') tok = true ->
            on_success s tok response w'
            = with_panel s {| content := EmptyPageInfo;
                              visible := visible (get s (panels w'));
                              rotation := rotation (get s (panels w'));
                              paused := paused (get s (panels w')) |}
                (with_errorBox {| html := html (errorBox w'); shown := false |} w')).
  { intros w' Hc. unfold on_success. rewrite Hc. simpl negb. cbv iota.
    destruct (Response.results response) as [|r0 rs]; [congruence|].
    change (0 <? List.length (r0 :: rs))%nat with true. cbv iota. rewrite Hoff, Htot.
    unfold page_count.
    now destruct (current_page off (Response.pageSize response)). }
  split; [| split; [| split]].
  - rewrite Hgen by assumption. simpl. apply get_set.
  - rewrite Hgen by assumption. reflexivity.
  - rewrite Hgen by assumption. simpl. rewrite !get_set. reflexivity.
  - rewrite Hgen by assumption. simpl. rewrite !get_set. reflexivity.
Qed.

Lemma missing_total_breaks_off_rendering_witness :
  get ConceptSearch (panels (on_success ConceptSearch 7 Sample.no_total Sample.showing))
  = {| content := EmptyPageInfo;
       visible := visible (get ConceptSearch (panels Sample.showing));
       rotation := rotation (get ConceptSearch (panels Sample.showing));
       paused := paused (get ConceptSearch (panels Sample.showing)) |}
  /\ shown (errorBox (on_success ConceptSearch 7 Sample.no_total Sample.showing)) = false
  /\ rotation (get ConceptSearch
                 (panels (on_success ConceptSearch 7 Sample.no_total
                            (handleSearchField ConceptSearch 7 Sample.showing))))
     = true
  /\ paused (get ConceptSearch
               (panels (on_success ConceptSearch 7 Sample.no_total
                          (handleSearchField ConceptSearch 7 Sample.showing))))
     = false.
Proof.
  apply (missing_total_breaks_off_rendering ConceptSearch 7 Sample.no_total 0 Sample.showing);
    try reflexivity. discriminate.
Defined.

(** What [on_success] shows for a response that starts on a page boundary
    below the total. *)
Lemma on_success_aligned s tok response k ps tot w :
  isCurrent (context w) tok = true ->
  Response.results response <> [] ->
  Response.offset response = Some (ps * k)%Z ->
  Response.pageSize response = Some ps ->
  Response.total response = Some tot ->
  (0 < ps)%Z -> (0 <= k)%Z -> (ps * k < tot)%Z ->
  exists cnt,
    is_ceiling cnt tot ps /\ (k + 1 <= cnt)%Z
    /\ on_success s tok response w
       = list_items s
           (Some {| from := ps * k + 1;
                    to := ps * k + Z.of_nat (List.length (Response.results response));
                    of_total := Some tot;
                    pagination := {| current := k + 1; pages := cnt |} |})
           (Response.results response)
           (with_errorBox {| html := html (errorBox w); shown := false |} w).
Proof.
  intros Hcur Hres Hoff Hps Htot Hpos Hk Hlt.
  destruct (ceil_div_is_ceiling tot ps Hpos) as (cnt & Hc & Hcc).
  exists cnt. split; [exact Hcc|].
  assert (Hle : (k + 1 <= cnt)%Z) by (unfold is_ceiling in Hcc; nia).
  split; [exact Hle|].
  unfold on_success. rewrite Hcur. simpl negb. cbv iota.
  destruct (Response.results response) as [|r0 rs] eqn:Hr; [congruence|].
  change (0 <? List.length (r0 :: rs))%nat with true. cbv iota. rewrite Hoff, Hps, Htot.
  rewrite current_page_aligned by assumption. unfold page_count. rewrite Hc.
  rewrite getPagination_in_range by lia. reflexivity.
Qed.

(** X6. A current, non-empty response whose offset is a multiple of the page
    size and lies below the total (as for every page the controller asks
    for) always gets its page information: the line "offset+1 to offset+n of
    total" and a widget that marks page [offset / pageSize + 1], one of its
    [ceil (total / pageSize)] pages; the error box is hidden. If every item
    can be built (every concept has a [designation]) the container lists the
    results, is shown, and the icon is paused; if one cannot, the exception
    of its builder leaves the page information without items, the container
    not shown and the icon not paused. *)
Theorem page_aligned_response_is_listed :
  forall s tok response k ps tot w,
    isCurrent (context w) tok = true ->
    Response.results response <> [] ->
    Response.offset response = Some (ps * k)%Z ->
    Response.pageSize response = Some ps ->
    Response.total response = Some tot ->
    (0 < ps)%Z -> (0 <= k)%Z -> (ps * k < tot)%Z ->
    exists cnt,
      is_ceiling cnt tot ps /\ (1 <= k + 1 <= cnt)%Z
      /\ ((ps * k) / ps + 1 = k + 1)%Z
      /\ get s (panels (on_success s tok response w))
         = (if forallb resultItemBuilder (Response.results response)
            then
              {| content :=
                   Listing (Some {| from := ps * k + 1;
                                    to := ps * k + Z.of_nat (List.length (Response.results response));
                                    of_total := Some tot;
                                    pagination := {| current := k + 1; pages := cnt |} |})
                           (Response.results response);
                 visible := true; rotation := rotation (get s (panels w)); paused := true |}
            else
              {| content :=
                   Unfinished (Some {| from := ps * k + 1;
                                       to := ps * k + Z.of_nat (List.length (Response.results response));
                                       of_total := Some tot;
                                       pagination := {| current := k + 1; pages := cnt |} |});
                 visible := visible (get s (panels w));
                 rotation := rotation (get s (panels w));
                 paused := paused (get s (panels w)) |})
      /\ shown (errorBox (on_success s tok response w)) = false.
Proof.
  intros s tok response k ps tot w Hcur Hres Hoff Hps Htot Hpos Hk Hlt.
  destruct (on_success_aligned s tok response k ps tot w) as (cnt & Hc & Hle & ->);
    try assumption.
  exists cnt. split; [exact Hc|]. split; [lia|]. split.
  - replace (ps * k)%Z with (k * ps)%Z by lia. now rewrite Z.div_mul by lia.
  - split; [rewrite get_list_items; reflexivity|].
    now rewrite (proj1 (proj2 (proj2 (list_items_frame _ _ _ _)))).
Qed.

Lemma page_aligned_response_is_listed_witness :
  exists cnt,
    is_ceiling cnt 250 100 /\ (1 <= 2 + 1 <= cnt)%Z
    /\ ((100 * 2) / 100 + 1 = 2 + 1)%Z
    /\ get ConceptSearch (panels (on_success ConceptSearch 7 Sample.undesignated Sample.showing))
       = (if forallb resultItemBuilder (Response.results Sample.undesignated)
          then
            {| content :=
                 Listing (Some {| from := 100 * 2 + 1;
                                  to := 100 * 2
                                        + Z.of_nat (List.length (Response.results Sample.undesignated));
                                  of_total := Some 250%Z;
                                  pagination := {| current := 2 + 1; pages := cnt |} |})
                         (Response.results Sample.undesignated);
               visible := true;
               rotation := rotation (get ConceptSearch (panels Sample.showing));
               paused := true |}
          else
            {| content :=
                 Unfinished (Some {| from := 100 * 2 + 1;
                                     to := 100 * 2
                                           + Z.of_nat (List.length (Response.results Sample.undesignated));
                                     of_total := Some 250%Z;
                                     pagination := {| current := 2 + 1; pages := cnt |} |});
               visible := visible (get ConceptSearch (panels Sample.showing));
               rotation := rotation (get ConceptSearch (panels Sample.showing));
               paused := paused (get ConceptSearch (panels Sample.showing)) |})
    /\ shown (errorBox (on_success ConceptSearch 7 Sample.undesignated Sample.showing)) = false.
Proof.
  apply (page_aligned_response_is_listed ConceptSearch 7 Sample.undesignated 2 100 250
           Sample.showing); try reflexivity; try lia. discriminate.
Defined.
End RenderingFacts.

(* ===================================================================== *)
(** ** The pagination widget at work *)
(* ===================================================================== *)

Module PagerFacts.
Import Gateway Search Spec JSFacts SearchFacts Pager RenderingFacts.

Lemma page_links_length total : List.length (page_links total) = Z.to_nat total.
Proof. unfold page_links. now rewrite length_map, length_seq. Qed.

(** The child after the left chevron and [i - 1] page links is the link to
    page [i]. *)
Lemma nth_child_page total i :
  (1 <= i <= total)%Z -> nth_child (i + 1) (controls total) = Some (PageLink i).
Proof.
  intros Hi. unfold nth_child, controls.
  destruct (Z.leb_spec (i + 1) 0); [lia|].
  replace (Z.to_nat (i + 1 - 1)) with (S (Z.to_nat (i - 1))) by lia. simpl nth_error.
  rewrite nth_error_app1 by (rewrite page_links_length; lia).
  unfold page_links. rewrite nth_error_map.
  rewrite (nth_error_nth' _ 0%nat) by (rewrite length_seq; lia).
  rewrite seq_nth by lia. simpl. do 2 f_equal. lia.
Qed.

Lemma In_page_links total c :
  In c (page_links total) -> exists i, c = PageLink i /\ (1 <= i <= total)%Z.
Proof.
  unfold page_links. intros H. apply in_map_iff in H as (n & <- & Hn).
  apply in_seq in Hn. exists (Z.of_nat n). split; [reflexivity | lia].
Qed.

Lemma click_Following depth pg :
  (1 <= current pg <= pages pg)%Z ->
  click (S depth) pg Following
  = if (current pg =? pages pg)%Z then [] else [(current pg + 1)%Z].
Proof.
  intros H. cbn [click handler].
  destruct (Z.eqb_spec (current pg) (pages pg)) as [E|E]; [reflexivity|].
  pose proof (nth_child_page (pages pg) (current pg + 1) ltac:(lia)) as Hn.
  replace (current pg + 1 + 1)%Z with (current pg + 2)%Z in Hn by lia.
  rewrite Hn. now destruct depth.
Qed.

Lemma click_Previous depth pg :
  (1 <= current pg <= pages pg)%Z ->
  click (S depth) pg Previous
  = if (current pg =? 1)%Z then [] else [(current pg - 1)%Z].
Proof.
  intros H. cbn [click handler].
  destruct (Z.eqb_spec (current pg) 1) as [E|E]; [reflexivity|].
  pose proof (nth_child_page (pages pg) (current pg - 1) ltac:(lia)) as Hn.
  replace (current pg - 1 + 1)%Z with (current pg) in Hn by lia.
  rewrite Hn. now destruct depth.
Qed.

(** X7. In a widget that [getPagination] built (so [1 <= current <= total])
    the right chevron calls [pageCallback] with [current + 1] and the left
    one with [current - 1], each is inert at its end of the range, every page
    from 1 to [total] has its link, and no control ever calls [pageCallback]
    with a page outside [1 .. total]. *)
Theorem pagination_controls_stay_in_range :
  forall cur tot pg depth,
    getPagination (Some cur) (Some tot) = Some pg ->
    click (S depth) pg Following = (if (cur =? tot)%Z then [] else [(cur + 1)%Z])
    /\ click (S depth) pg Previous = (if (cur =? 1)%Z then [] else [(cur - 1)%Z])
    /\ (forall i, (1 <= i <= tot)%Z ->
                  In (PageLink i) (controls tot) /\ click (S depth) pg (PageLink i) = [i])
    /\ (forall c page, In c (controls tot) -> In page (click (S depth) pg c) ->
                       (1 <= page <= tot)%Z).
Proof.
  intros cur tot pg depth Hpg.
  apply getPagination_Some in Hpg as (Hc & Ht & Hr).
  assert (Hr' : (1 <= current pg <= pages pg)%Z) by lia.
  split; [| split; [| split]].
  - rewrite click_Following by assumption. now rewrite Hc, Ht.
  - rewrite click_Previous by assumption. now rewrite Hc.
  - intros i Hi. split; [|reflexivity].
    unfold controls. right. apply in_or_app. left. unfold page_links.
    apply in_map_iff. exists (Z.to_nat i). split; [f_equal; lia|].
    apply in_seq. lia.
  - intros c page Hin Hpage. unfold controls in Hin.
    destruct Hin as [<-|Hin].
    + rewrite click_Previous in Hpage by assumption.
      destruct (Z.eqb_spec (current pg) 1); [contradiction|].
      destruct Hpage as [<-|[]]. lia.
    + apply in_app_or in Hin as [Hin|[<-|[]]].
      * apply In_page_links in Hin as (i & -> & Hi).
        destruct Hpage as [<-|[]]. exact Hi.
      * rewrite click_Following in Hpage by assumption.
        destruct (Z.eqb_spec (current pg) (pages pg)); [contradiction|].
        destruct Hpage as [<-|[]]. lia.
Qed.

Lemma pagination_controls_stay_in_range_witness :
  click 1 {| current := 2; pages := 3 |} Following = (if (2 =? 3)%Z then [] else [(2 + 1)%Z])
  /\ click 1 {| current := 2; pages := 3 |} Previous = (if (2 =? 1)%Z then [] else [(2 - 1)%Z])
  /\ (forall i, (1 <= i <= 3)%Z ->
                In (PageLink i) (controls 3)
                /\ click 1 {| current := 2; pages := 3 |} (PageLink i) = [i])
  /\ (forall c page, In c (controls 3) ->
                     In page (click 1 {| current := 2; pages := 3 |} c) ->
                     (1 <= page <= 3)%Z).
Proof.
  apply (pagination_controls_stay_in_range 2 3 {| current := 2; pages := 3 |} 0%nat).
  reflexivity.
Defined.

Lemma onPageChange_paged s p tok page w :
  paging s (context w) = Some p ->
  option_map offset (paging s (context (onPageChange s tok page w)))
  = Some (count p * (page - 1))%Z.
Proof.
  intros Hp. destruct (onPageChange_offset s p tok page w Hp) as [-> _]. reflexivity.
Qed.

(** X8. Paging never runs past the end. When a page that starts at
    [count * k] below the total is shown, the right chevron of its widget,
    unless it is the last page, searches again under the same token at
    offset [count * (k + 1)], which is still below the total; the left
    chevron, unless it is the first page, at [count * (k - 1)], which is not
    negative. *)
Theorem chevrons_page_within_total :
  forall s p tok response k tot w depth,
    paging s (context w) = Some p ->
    isCurrent (context w) tok = true ->
    Response.results response <> [] ->
    Response.offset response = Some (count p * k)%Z ->
    Response.pageSize response = Some (count p) ->
    Response.total response = Some tot ->
    (0 < count p)%Z -> (0 <= k)%Z -> (count p * k < tot)%Z ->
    exists pg,
      shown_pagination (get s (panels (on_success s tok response w))) = Some pg
      /\ current pg = (k + 1)%Z
      /\ option_map offset
           (paging s (context (press (S depth) s tok pg Following
                                 (on_success s tok response w))))
         = Some (if (current pg =? pages pg)%Z then offset p else count p * (k + 1))%Z
      /\ (current pg = pages pg \/ (count p * (k + 1) < tot)%Z)
      /\ option_map offset
           (paging s (context (press (S depth) s tok pg Previous
                                 (on_success s tok response w))))
         = Some (if (current pg =? 1)%Z then offset p else count p * (k - 1))%Z
      /\ (current pg = 1%Z \/ (0 <= count p * (k - 1))%Z)
      /\ latestSearchToken
           (context (press (S depth) s tok pg Following (on_success s tok response w)))
         = latestSearchToken (context w).
Proof.
  intros s p tok response k tot w depth Hp Hcur Hres Hoff Hps Htot Hpos Hk Hlt.
  destruct (on_success_aligned s tok response k (count p) tot w) as (cnt & Hc & Hle & E);
    try assumption.
  exists {| current := k + 1; pages := cnt |}.
  assert (Hctx : context (on_success s tok response w) = context w)
    by apply on_success_context.
  assert (Hp' : paging s (context (on_success s tok response w)) = Some p)
    by now rewrite Hctx.
  unfold press. rewrite click_Following, click_Previous by (simpl; lia). simpl current.
  simpl pages.
  split.
  { rewrite E. unfold shown_pagination. rewrite get_list_items.
    now destruct (forallb resultItemBuilder (Response.results response)). }
  split; [reflexivity|].
  split; [| split; [| split; [| split]]].
  - destruct (Z.eqb_spec (k + 1) cnt); simpl fold_left.
    + now rewrite Hp'.
    + rewrite (onPageChange_paged s p) by assumption. do 2 f_equal. lia.
  - destruct (Z.eq_dec (k + 1) cnt); [now left|]. right.
    unfold is_ceiling in Hc. nia.
  - destruct (Z.eqb_spec (k + 1) 1); simpl fold_left.
    + now rewrite Hp'.
    + rewrite (onPageChange_paged s p) by assumption. do 2 f_equal. lia.
  - destruct (Z.eq_dec (k + 1) 1); [now left|]. right. nia.
  - destruct (Z.eqb_spec (k + 1) cnt); simpl fold_left.
    + now rewrite Hctx.
    + now rewrite onPageChange_token, Hctx.
Qed.

Lemma chevrons_page_within_total_witness :
  exists pg,
    shown_pagination
      (get ConceptSearch (panels (on_success ConceptSearch 7 Sample.third_page Sample.showing)))
    = Some pg
    /\ current pg = (2 + 1)%Z
    /\ option_map offset
         (paging ConceptSearch
            (context (press 1 ConceptSearch 7 pg Following
                        (on_success ConceptSearch 7 Sample.third_page Sample.showing))))
       = Some (if (current pg =? pages pg)%Z then offset initial_paging
               else count initial_paging * (2 + 1))%Z
    /\ (current pg = pages pg \/ (count initial_paging * (2 + 1) < 250)%Z)
    /\ option_map offset
         (paging ConceptSearch
            (context (press 1 ConceptSearch 7 pg Previous
                        (on_success ConceptSearch 7 Sample.third_page Sample.showing))))
       = Some (if (current pg =? 1)%Z then offset initial_paging
               else count initial_paging * (2 - 1))%Z
    /\ (current pg = 1%Z \/ (0 <= count initial_paging * (2 - 1))%Z)
    /\ latestSearchToken
         (context (press 1 ConceptSearch 7 pg Following
                     (on_success ConceptSearch 7 Sample.third_page Sample.showing)))
       = latestSearchToken (context Sample.showing).
Proof.
  apply (chevrons_page_within_total ConceptSearch initial_paging 7 Sample.third_page 2 250
           Sample.showing 0%nat); try reflexivity; try lia. discriminate.
Defined.
End PagerFacts.

(* ===================================================================== *)
(** ** Selections *)
(* ===================================================================== *)

Module SelectionFacts.
Import Gateway Search Spec JSFacts SearchFacts Selection.

(** What a fired trigger on the concept field sends. *)
Lemma concept_search_request evt now w :
  other_key evt = false ->
  (2 <= String.length (JS.trim (get ConceptSearch (fields w))))%nat ->
  sent (on_field_event ConceptSearch evt now w)
  = sent w
    ++ [ {| surface := ConceptSearch; searchToken := now;
            requests :=
              [ query "ValueSet/$expand"
                  [ ("url", PStr (get ValueSetSearch (fields w)));
                    ("filter", PStr (get ConceptSearch (fields w)));
                    ("offset", PNum 0);
                    ("count", PNum (count (conceptSearch (context w))));
                    ("activeOnly", PBool (activeOnly (conceptSearch (context w))));
                    ("includeDesignations",
                     PBool (includeDesignations (conceptSearch (context w)))) ] ] |} ].
Proof.
  intros Hevt Hlen. unfold on_field_event. rewrite subscribe_gate, Hevt.
  cbn [negb andb minLength_of].
  apply Nat.leb_le in Hlen. rewrite Hlen. reflexivity.
Qed.

(** X9. Selecting a Value Set result starts no search (no token, no query):
    it records the value set, writes its URL in the Value Set field and hides
    the results. The next concept search then expands exactly that URL, from
    offset 0, with the text typed as filter. *)
Theorem selected_value_set_is_searched :
  forall valueSet text evt now w,
    other_key evt = false ->
    (2 <= String.length (JS.trim text))%nat ->
    latestSearchToken (context (selectValueSet valueSet w)) = latestSearchToken (context w)
    /\ sent (selectValueSet valueSet w) = sent w
    /\ Search.valueSet (context (selectValueSet valueSet w)) = Some valueSet
    /\ get ValueSetSearch (fields (selectValueSet valueSet w)) = url (resource valueSet)
    /\ visible (get ValueSetSearch (panels (selectValueSet valueSet w))) = false
    /\ sent (on_field_event ConceptSearch evt now
               (with_field ConceptSearch text (selectValueSet valueSet w)))
       = sent w
         ++ [ {| surface := ConceptSearch; searchToken := now;
                 requests :=
                   [ query "ValueSet/$expand"
                       [ ("url", PStr (url (resource valueSet)));
                         ("filter", PStr text);
                         ("offset", PNum 0);
                         ("count", PNum (count (conceptSearch (context w))));
                         ("activeOnly", PBool (activeOnly (conceptSearch (context w))));
                         ("includeDesignations",
                          PBool (includeDesignations (conceptSearch (context w)))) ] ] |} ].
Proof.
  intros valueSet text evt now w Hevt Hlen.
  repeat (split; [reflexivity|]).
  rewrite concept_search_request; [reflexivity | assumption | exact Hlen].
Qed.

Lemma selected_value_set_is_searched_witness :
  latestSearchToken
    (context (selectValueSet (Sample.entry_of "sct" "SNOMED CT") Sample.loaded))
  = latestSearchToken (context Sample.loaded)
  /\ sent (selectValueSet (Sample.entry_of "sct" "SNOMED CT") Sample.loaded)
     = sent Sample.loaded
  /\ Search.valueSet (context (selectValueSet (Sample.entry_of "sct" "SNOMED CT") Sample.loaded))
     = Some (Sample.entry_of "sct" "SNOMED CT")
  /\ get ValueSetSearch (fields (selectValueSet (Sample.entry_of "sct" "SNOMED CT") Sample.loaded))
     = url (resource (Sample.entry_of "sct" "SNOMED CT"))
  /\ visible (get ValueSetSearch
                (panels (selectValueSet (Sample.entry_of "sct" "SNOMED CT") Sample.loaded)))
     = false
  /\ sent (on_field_event ConceptSearch Change 9
             (with_field ConceptSearch "neoplasm"
                (selectValueSet (Sample.entry_of "sct" "SNOMED CT") Sample.loaded)))
     = sent Sample.loaded
       ++ [ {| surface := ConceptSearch; searchToken := 9;
               requests :=
                 [ query "ValueSet/$expand"
                     [ ("url", PStr (url (resource (Sample.entry_of "sct" "SNOMED CT"))));
                       ("filter", PStr "neoplasm");
                       ("offset", PNum 0);
                       ("count", PNum (count (conceptSearch (context Sample.loaded))));
                       ("activeOnly",
                        PBool (activeOnly (conceptSearch (context Sample.loaded))));
                       ("includeDesignations",
                        PBool (includeDesignations (conceptSearch (context Sample.loaded)))) ] ] |} ].
Proof.
  apply (selected_value_set_is_searched (Sample.entry_of "sct" "SNOMED CT") "neoplasm"
           Change 9 Sample.loaded).
  - reflexivity.
  - simpl. lia.
Defined.

(** X10. Selecting a Code System result starts no search either, although
    it rewrites two search fields: the Code System field receives the name,
    the Value Set field the [valueSet] attribute of the resource (the empty
    string when it has none), and the results are hidden. The Value Set
    recorded in [context] is not touched, and the next concept search expands
    the URL just written. *)
Theorem selected_code_system_fills_value_set :
  forall codeSystem valueSetAttribute text evt now w,
    other_key evt = false ->
    (2 <= String.length (JS.trim text))%nat ->
    latestSearchToken (context (selectCodeSystem codeSystem valueSetAttribute w))
    = latestSearchToken (context w)
    /\ sent (selectCodeSystem codeSystem valueSetAttribute w) = sent w
    /\ Search.codeSystem (context (selectCodeSystem codeSystem valueSetAttribute w))
       = Some codeSystem
    /\ Search.valueSet (context (selectCodeSystem codeSystem valueSetAttribute w))
       = Search.valueSet (context w)
    /\ get CodeSystemSearch (fields (selectCodeSystem codeSystem valueSetAttribute w))
       = name (resource codeSystem)
    /\ get ValueSetSearch (fields (selectCodeSystem codeSystem valueSetAttribute w))
       = match valueSetAttribute with Some u => u | None => "" end
    /\ visible (get CodeSystemSearch (panels (selectCodeSystem codeSystem valueSetAttribute w)))
       = false
    /\ exists rq,
         sent (on_field_event ConceptSearch evt now
                 (with_field ConceptSearch text
                    (selectCodeSystem codeSystem valueSetAttribute w)))
         = sent w ++ [ {| surface := ConceptSearch; searchToken := now; requests := [rq] |} ]
         /\ In ("url", PStr (match valueSetAttribute with Some u => u | None => "" end))
               (req_data rq)
         /\ In ("offset", PNum 0) (req_data rq).
Proof.
  intros codeSystem valueSetAttribute text evt now w Hevt Hlen.
  repeat (split; [reflexivity|]).
  rewrite concept_search_request; [| assumption | exact Hlen].
  eexists. split; [reflexivity|]. simpl. tauto.
Qed.

Lemma selected_code_system_fills_value_set_witness :
  latestSearchToken
    (context (selectCodeSystem (Sample.entry_of "sct" "SNOMED CT") None Sample.showing))
  = latestSearchToken (context Sample.showing)
  /\ sent (selectCodeSystem (Sample.entry_of "sct" "SNOMED CT") None Sample.showing)
     = sent Sample.showing
  /\ Search.codeSystem
       (context (selectCodeSystem (Sample.entry_of "sct" "SNOMED CT") None Sample.showing))
     = Some (Sample.entry_of "sct" "SNOMED CT")
  /\ Search.valueSet
       (context (selectCodeSystem (Sample.entry_of "sct" "SNOMED CT") None Sample.showing))
     = Search.valueSet (context Sample.showing)
  /\ get CodeSystemSearch
       (fields (selectCodeSystem (Sample.entry_of "sct" "SNOMED CT") None Sample.showing))
     = name (resource (Sample.entry_of "sct" "SNOMED CT"))
  /\ get ValueSetSearch
       (fields (selectCodeSystem (Sample.entry_of "sct" "SNOMED CT") None Sample.showing))
     = match @None string with Some u => u | None => "" end
  /\ visible (get CodeSystemSearch
                (panels (selectCodeSystem (Sample.entry_of "sct" "SNOMED CT") None
                           Sample.showing)))
     = false
  /\ exists rq,
       sent (on_field_event ConceptSearch (Keypress 13) 9
               (with_field ConceptSearch "neoplasm"
                  (selectCodeSystem (Sample.entry_of "sct" "SNOMED CT") None Sample.showing)))
       = sent Sample.showing
         ++ [ {| surface := ConceptSearch; searchToken := 9; requests := [rq] |} ]
       /\ In ("url", PStr (match @None string with Some u => u | None => "" end))
             (req_data rq)
       /\ In ("offset", PNum 0) (req_data rq).
Proof.
  apply (selected_code_system_fills_value_set (Sample.entry_of "sct" "SNOMED CT") None
           "neoplasm" (Keypress 13) 9 Sample.showing).
  - reflexivity.
  - simpl. lia.
Defined.
End SelectionFacts.

(* ===================================================================== *)
(** ** Traces of events *)
(* ===================================================================== *)

Module TraceFacts.
Import Gateway Search Spec JSFacts SearchFacts.

Lemma drifted_refl p : drifted p p.
Proof. split; [reflexivity | now left]. Qed.

Lemma drifted_trans p p' p'' : drifted p p' -> drifted p' p'' -> drifted p p''.
Proof.
  intros [S1 O1] [S2 O2]. split; [congruence|].
  assert (Hc : count p' = count p) by (unfold settings in S1; congruence).
  destruct O2 as [E|D].
  - rewrite E. exact O1.
  - right. now rewrite <- Hc.
Qed.

Lemma drifted_offset p o : (count p | o)%Z -> drifted p (with_offset o p).
Proof. intros D. split; [reflexivity | now right]. Qed.

Lemma reset_offset_drifted s o w :
  (forall p, paging s (context w) = Some p -> (count p | o)%Z) ->
  drifted (conceptSearch (context w)) (conceptSearch (context (reset_offset s o w)))
  /\ drifted (eclSearch (context w)) (eclSearch (context (reset_offset s o w))).
Proof.
  intros H. destruct s; simpl; split; try apply drifted_refl;
    apply drifted_offset; now apply H.
Qed.

Section Controller.
Variable JSON : JSONObject.

Lemma step_drifted e w :
  drifted (conceptSearch (context w)) (conceptSearch (context (step JSON e w)))
  /\ drifted (eclSearch (context w)) (eclSearch (context (step JSON e w))).
Proof.
  destruct e as [s v|s evt now|s t page|s t r|s t err]; simpl.
  - split; apply drifted_refl.
  - unfold on_field_event. rewrite subscribe_gate.
    destruct (_ && _); [|split; apply drifted_refl].
    unfold on_trigger.
    destruct (handleSearchField_frame s now (reset_offset s 0 (mint now w))) as (-> & _).
    apply (reset_offset_drifted s 0 (mint now w)). intros p _. apply Z.divide_0_r.
  - unfold onPageChange. destruct (paging s (context w)) as [p|] eqn:Hp;
      [|split; apply drifted_refl].
    destruct (handleSearchField_frame s t (reset_offset s (count p * (page - 1)) w))
      as (-> & _).
    apply reset_offset_drifted. intros p' Hp'. rewrite Hp in Hp'. injection Hp' as <-.
    apply Z.divide_factor_l.
  - rewrite on_query_success_context. split; apply drifted_refl.
  - split; apply drifted_refl.
Qed.

(** X11. No event changes the page size or the [activeOnly] and
    [includeDesignations] switches of the concept and ECL searches, and the
    offset of each is, after any trace, either untouched or a multiple of
    the page size. *)
Theorem paging_settings_are_constant :
  forall trace w,
    settings (conceptSearch (context (run JSON trace w))) = settings (conceptSearch (context w))
    /\ settings (eclSearch (context (run JSON trace w))) = settings (eclSearch (context w))
    /\ (offset (conceptSearch (context (run JSON trace w))) = offset (conceptSearch (context w))
        \/ (count (conceptSearch (context w))
            | offset (conceptSearch (context (run JSON trace w))))%Z)
    /\ (offset (eclSearch (context (run JSON trace w))) = offset (eclSearch (context w))
        \/ (count (eclSearch (context w))
            | offset (eclSearch (context (run JSON trace w))))%Z).
Proof.
  intros trace w.
  assert (H : drifted (conceptSearch (context w)) (conceptSearch (context (run JSON trace w)))
              /\ drifted (eclSearch (context w)) (eclSearch (context (run JSON trace w)))).
  { revert w. induction trace as [|e trace IH]; intros w.
    - split; apply drifted_refl.
    - unfold run in *. simpl fold_left.
      destruct (step_drifted e w) as [C1 E1]. destruct (IH (step JSON e w)) as [C2 E2].
      split; eapply drifted_trans; eassumption. }
  destruct H as [[S1 O1] [S2 O2]]. tauto.
Qed.

Lemma paged_paging s c : paged s = true <-> exists p, paging s c = Some p.
Proof.
  destruct s; simpl; split; try discriminate; try (intros [p H]; discriminate);
    try (intros _; eexists; reflexivity); reflexivity.
Qed.

Lemma step_sent e w :
  exists more,
    sent (step JSON e w) = sent w ++ more
    /\ List.length more
       = ((match minted e w with Some _ => 1 | None => 0 end)
          + (match e with PageClick s _ _ => if paged s then 1 else 0 | _ => 0 end))%nat.
Proof.
  destruct e as [s v|s evt now|s t page|s t r|s t err]; simpl.
  - exists []. now rewrite app_nil_r.
  - unfold on_field_event. rewrite subscribe_gate.
    destruct (other_key evt); simpl negb; simpl andb.
    + exists []. now rewrite app_nil_r.
    + destruct (Nat.ltb_spec (String.length (JS.trim (get s (fields w))))
                  (match minLength_of s with None => 2 | Some m => m end)%nat) as [H|H].
      * apply Nat.leb_gt in H. rewrite H. exists []. now rewrite app_nil_r.
      * apply Nat.leb_le in H. rewrite H. eexists. split.
        -- unfold on_trigger, handleSearchField. simpl sent.
           destruct (reset_offset_frame s 0 (mint now w)) as (_ & _ & _ & _ & ->).
           reflexivity.
        -- reflexivity.
  - unfold onPageChange. destruct s; simpl; try (exists []; now rewrite app_nil_r);
      eexists; split; reflexivity.
  - exists []. rewrite app_nil_r. split; [|reflexivity].
    unfold on_query_success. rewrite on_success_sent. apply on_answer_frame.
  - exists []. now rewrite app_nil_r.
Qed.

(** X12. Queries leave only when a trigger fires or a page control of a
    paged surface is clicked, one batch each time: after any trace the list
    of batches sent is the old list extended by as many batches as tokens
    were minted plus page clicks made. Responses, failures and typing send
    nothing, so nothing is ever retried or re-sent. *)
Theorem one_batch_per_search_or_page :
  forall trace w,
    exists more,
      sent (run JSON trace w) = sent w ++ more
      /\ List.length more = (List.length (issued JSON trace w) + page_clicks trace)%nat.
Proof.
  induction trace as [|e trace IH]; intros w.
  - exists []. now rewrite app_nil_r.
  - unfold run in *. simpl fold_left.
    destruct (step_sent e w) as (m1 & E1 & L1).
    destruct (IH (step JSON e w)) as (m2 & E2 & L2).
    exists (m1 ++ m2). split; [now rewrite E2, E1, app_assoc|].
    rewrite length_app, L1, L2. simpl issued. unfold page_clicks. simpl filter.
    destruct (minted e w); destruct e as [| | s ? ?| |]; simpl; try lia;
      destruct (paged s); simpl; lia.
Qed.
End Controller.

Lemma on_field_event_fired s evt now w :
  other_key evt = false ->
  (threshold s <= String.length (JS.trim (get s (fields w))))%nat ->
  on_field_event s evt now w = on_trigger s now (mint now w).
Proof.
  intros Hevt Hlen. unfold on_field_event. rewrite subscribe_gate, Hevt.
  cbn [negb andb]. apply Nat.leb_le in Hlen.
  replace (match minLength_of s with None => 2 | Some m => m end)%nat with (threshold s)
    by now destruct s.
  now rewrite Hlen.
Qed.

Lemma mint_panels t w : panels (mint t w) = panels w.
Proof. reflexivity. Qed.

Lemma on_trigger_frame s t w :
  fields (on_trigger s t w) = fields w
  /\ get s (panels (on_trigger s t w))
     = {| content := content (get s (panels w)); visible := visible (get s (panels w));
          rotation := true; paused := false |}
  /\ (forall s', s' <> s -> get s' (panels (on_trigger s t w)) = get s' (panels w)).
Proof.
  unfold on_trigger, handleSearchField. simpl.
  destruct (reset_offset_frame s 0 w) as (_ & Hf & Hp & _). rewrite Hf, Hp.
  split; [reflexivity|]. split; [apply get_set|].
  intros s' Hne. destruct s, s'; try reflexivity; contradiction.
Qed.

(** X13. A search that is superseded before it answers never stops its
    loading icon. After a search fires on surface [s] and then another one
    fires, on any surface, at another clock reading, the success of the
    first is dropped: what its container shows is what it showed before the
    search, and its icon is still rotating, not paused. *)
Theorem superseded_search_keeps_spinning :
  forall s s' evt evt' t t' response w,
    other_key evt = false ->
    (threshold s <= String.length (JS.trim (get s (fields w))))%nat ->
    other_key evt' = false ->
    (threshold s' <= String.length (JS.trim (get s' (fields w))))%nat ->
    t <> t' ->
    on_success s t response (on_field_event s' evt' t' (on_field_event s evt t w))
    = on_field_event s' evt' t' (on_field_event s evt t w)
    /\ get s (panels (on_success s t response
                        (on_field_event s' evt' t' (on_field_event s evt t w))))
       = {| content := content (get s (panels w)); visible := visible (get s (panels w));
            rotation := true; paused := false |}.
Proof.
  intros s s' evt evt' t t' response w Hevt Hlen Hevt' Hlen' Hne.
  rewrite (on_field_event_fired s evt t w) by assumption.
  destruct (on_trigger_frame s t (mint t w)) as (Hf & Hp & Hother).
  rewrite (on_field_event_fired s' evt' t') by (try assumption; now rewrite Hf).
  assert (Hstale : on_success s t response
                     (on_trigger s' t' (mint t' (on_trigger s t (mint t w))))
                   = on_trigger s' t' (mint t' (on_trigger s t (mint t w)))).
  { apply on_success_stale. unfold isCurrent. rewrite on_trigger_token. simpl.
    apply Z.eqb_neq. congruence. }
  split; [exact Hstale|]. rewrite Hstale.
  destruct (on_trigger_frame s' t' (mint t' (on_trigger s t (mint t w))))
    as (_ & Hp' & Hother').
  destruct (Surface_eqb s s') eqn:E.
  - assert (s = s') as <- by (destruct s, s'; simpl in E; congruence).
    rewrite Hp'. rewrite (mint_panels t' (on_trigger s t (mint t w))), Hp. reflexivity.
  - rewrite Hother' by (intros ->; destruct s'; discriminate).
    rewrite (mint_panels t' (on_trigger s t (mint t w))). exact Hp.
Qed.

Lemma superseded_search_keeps_spinning_witness :
  on_success CodeSystemSearch 1000
    (merged_response {| results := [Sample.entry_of "sct" "SNOMED CT"] |})
    (on_field_event ValueSetSearch Change 2000
       (on_field_event CodeSystemSearch Change 1000
          (with_field ValueSetSearch "icd" (with_field CodeSystemSearch "snomed" Sample.loaded))))
  = on_field_event ValueSetSearch Change 2000
      (on_field_event CodeSystemSearch Change 1000
         (with_field ValueSetSearch "icd" (with_field CodeSystemSearch "snomed" Sample.loaded)))
  /\ get CodeSystemSearch
       (panels (on_success CodeSystemSearch 1000
                  (merged_response {| results := [Sample.entry_of "sct" "SNOMED CT"] |})
                  (on_field_event ValueSetSearch Change 2000
                     (on_field_event CodeSystemSearch Change 1000
                        (with_field ValueSetSearch "icd"
                           (with_field CodeSystemSearch "snomed" Sample.loaded))))))
     = {| content :=
            content (get CodeSystemSearch
                       (panels (with_field ValueSetSearch "icd"
                                  (with_field CodeSystemSearch "snomed" Sample.loaded))));
          visible :=
            visible (get CodeSystemSearch
                       (panels (with_field ValueSetSearch "icd"
                                  (with_field CodeSystemSearch "snomed" Sample.loaded))));
          rotation := true; paused := false |}.
Proof.
  apply (superseded_search_keeps_spinning CodeSystemSearch ValueSetSearch Change Change
           1000 2000
           (merged_response {| results := [Sample.entry_of "sct" "SNOMED CT"] |})
           (with_field ValueSetSearch "icd" (with_field CodeSystemSearch "snomed" Sample.loaded)));
    try reflexivity; try (simpl; lia); discriminate.
Defined.

Lemma trimStart_blank s : blank s = true -> JS.trimStart s = "".
Proof.
  induction s as [|c r IH]; [reflexivity|]. simpl.
  destruct (JS.isWhiteSpace c); [exact IH | discriminate].
Qed.

(** X14. A field that holds white space only, however long, never starts a
    search: every event on it leaves the page as it is (no token, no query,
    no spinner), on every surface. *)
Theorem blank_field_never_searches :
  forall s evt now w,
    blank (get s (fields w)) = true ->
    on_field_event s evt now w = w.
Proof.
  intros s evt now w Hb. unfold on_field_event, subscribe.
  destruct (other_key evt); [reflexivity|].
  unfold JS.trim. rewrite trimStart_blank by assumption. simpl.
  now destruct s.
Qed.

Lemma blank_field_never_searches_witness :
  on_field_event ECLSearch Change 5 (with_field ECLSearch "   " Sample.loaded)
  = with_field ECLSearch "   " Sample.loaded.
Proof.
  apply (blank_field_never_searches ECLSearch Change 5
           (with_field ECLSearch "   " Sample.loaded)).
  reflexivity.
Defined.
End TraceFacts.

(* ===================================================================== *)
(** ** The ECL search request *)
(* ===================================================================== *)

Module ECLSearchFacts.
Import Gateway Search Spec JSFacts SearchFacts ECL ECLFacts.

Lemma append_assoc (a b c : string) : ((a ++ b) ++ c = a ++ (b ++ c))%string.
Proof. induction a as [|x a IH]; simpl; [reflexivity | now rewrite IH]. Qed.

Lemma append_nil_r (a : string) : (a ++ "" = a)%string.
Proof. induction a as [|x a IH]; simpl; [reflexivity | now rewrite IH]. Qed.

Lemma reverse_acc : forall s acc, JS.reverse s acc = (JS.reverse s "" ++ acc)%string.
Proof.
  induction s as [|c r IH]; intros acc; simpl; [reflexivity|].
  rewrite (IH (String c acc)), (IH (String c "")), append_assoc. reflexivity.
Qed.

Lemma reverse_append a b :
  JS.reverse (a ++ b)%string "" = (JS.reverse b "" ++ JS.reverse a "")%string.
Proof.
  induction a as [|c a IH]; simpl; [now rewrite append_nil_r|].
  rewrite (reverse_acc (a ++ b)%string (String c "")), IH,
    (reverse_acc a (String c "")), append_assoc. reflexivity.
Qed.

Lemma reverse_involutive s : JS.reverse (JS.reverse s "") "" = s.
Proof.
  induction s as [|c r IH]; simpl; [reflexivity|].
  rewrite (reverse_acc r (String c "")), reverse_append, IH. reflexivity.
Qed.

Lemma prefix_spec : forall p s,
  String.prefix p s = true <-> exists r, s = (p ++ r)%string.
Proof.
  induction p as [|c p IH]; intros s.
  - split; [intros _; now exists s | intros _; now destruct s].
  - destruct s as [|d s]; simpl.
    + split; [discriminate | intros [r H]; discriminate].
    + destruct (ascii_dec c d) as [->|Hne].
      * rewrite IH. split; intros [r H]; exists r; congruence.
      * split; [discriminate | intros [r H]; congruence].
Qed.

(** [JS.endsWith] is what [String.prototype.endsWith] computes. *)
Lemma endsWith_spec s suffix :
  JS.endsWith s suffix = true <-> exists b, s = (b ++ suffix)%string.
Proof.
  unfold JS.endsWith. rewrite prefix_spec. split.
  - intros [r H]. exists (JS.reverse r "").
    rewrite <- (reverse_involutive s), H, reverse_append, reverse_involutive. reflexivity.
  - intros [b ->]. exists (JS.reverse b ""). apply reverse_append.
Qed.

(** X15. The URL of an ECL expansion always ends with
    [?fhir_vs=ecl/<expression>], the marker [?fhir_vs] occurring once at
    that place: a value set URL that ends with the marker is used as it is,
    any other gets the marker appended, so a URL and the same URL with the
    marker give the same request. *)
Theorem ecl_url_has_the_marker_once :
  forall valueSetUrl base value,
    (exists b,
       ecl_url valueSetUrl value = (b ++ "?fhir_vs=ecl/" ++ value)%string
       /\ (valueSetUrl = (b ++ "?fhir_vs")%string
           \/ (valueSetUrl = b /\ forall b', valueSetUrl <> (b' ++ "?fhir_vs")%string)))
    /\ ecl_url (base ++ "?fhir_vs") value = (base ++ "?fhir_vs=ecl/" ++ value)%string
    /\ (ecl_url (valueSetUrl ++ "?fhir_vs") value = ecl_url valueSetUrl value
        \/ exists b, valueSetUrl = (b ++ "?fhir_vs")%string).
Proof.
  intros valueSetUrl base value.
  assert (Hwith : forall b, ecl_url (b ++ "?fhir_vs") value
                            = (b ++ "?fhir_vs=ecl/" ++ value)%string).
  { intros b. unfold ecl_url.
    assert (E : JS.endsWith (b ++ "?fhir_vs") "?fhir_vs" = true)
      by (apply endsWith_spec; now exists b).
    rewrite E. simpl negb. cbv iota. now rewrite append_assoc. }
  assert (Hwithout : JS.endsWith valueSetUrl "?fhir_vs" = false ->
                     ecl_url valueSetUrl value
                     = (valueSetUrl ++ "?fhir_vs=ecl/" ++ value)%string).
  { intros E. unfold ecl_url. rewrite E. simpl negb. cbv iota.
    now rewrite append_assoc. }
  split; [| split; [apply Hwith|]].
  - destruct (JS.endsWith valueSetUrl "?fhir_vs") eqn:E.
    + apply endsWith_spec in E as [b ->]. exists b. split; [apply Hwith | now left].
    + exists valueSetUrl. split; [now apply Hwithout|]. right. split; [reflexivity|].
      intros b' Hb'.
      assert (JS.endsWith valueSetUrl "?fhir_vs" = true)
        by (apply endsWith_spec; now exists b').
      congruence.
  - destruct (JS.endsWith valueSetUrl "?fhir_vs") eqn:E.
    + right. now apply endsWith_spec.
    + left. rewrite Hwith. symmetry. now apply Hwithout.
Qed.

(** X16. An edit of the filter rows (or Enter in one of them; any other key
    does nothing) writes the rendered short form in the ECL field and, iff
    its trimmed length is at least 1, starts a search under a new token: one
    expansion request whose URL is the value set URL with
    [?fhir_vs=ecl/<short form>], from offset 0. Otherwise only the field
    changes. *)
Theorem filter_edit_searches_the_rendered_expression :
  forall evt wrappers now w,
    updateSearchString evt wrappers now w
    = (if match evt with Some e => other_key e | None => false end then w
       else if (1 <=? String.length (JS.trim (JS.join ", " (emitted op wrappers))))%nat
            then on_trigger ECLSearch now
                   (mint now (with_field ECLSearch (JS.join ", " (emitted op wrappers)) w))
            else with_field ECLSearch (JS.join ", " (emitted op wrappers)) w)
    /\ latestSearchToken
         (context (on_trigger ECLSearch now
                     (mint now (with_field ECLSearch (JS.join ", " (emitted op wrappers)) w))))
       = Some now
    /\ sent (on_trigger ECLSearch now
               (mint now (with_field ECLSearch (JS.join ", " (emitted op wrappers)) w)))
       = sent w
         ++ [ {| surface := ECLSearch; searchToken := now;
                 requests :=
                   [ query "ValueSet/$expand"
                       [ ("url", PStr (ecl_url (get ValueSetSearch (fields w))
                                         (JS.join ", " (emitted op wrappers))));
                         ("offset", PNum 0);
                         ("count", PNum (count (eclSearch (context w))));
                         ("activeOnly", PBool (activeOnly (eclSearch (context w))));
                         ("includeDesignations",
                          PBool (includeDesignations (eclSearch (context w)))) ] ] |} ].
Proof.
  intros evt wrappers now w.
  assert (Hr : fst (rebuild wrappers) = emitted op wrappers)
    by (unfold rebuild; now rewrite rebuild_from).
  assert (Hgo : on_field_event ECLSearch Change now
                  (with_field ECLSearch (JS.join ", " (fst (rebuild wrappers))) w)
                = if (1 <=? String.length (JS.trim (JS.join ", " (emitted op wrappers))))%nat
                  then on_trigger ECLSearch now
                         (mint now (with_field ECLSearch
                                      (JS.join ", " (emitted op wrappers)) w))
                  else with_field ECLSearch (JS.join ", " (emitted op wrappers)) w).
  { rewrite Hr. unfold on_field_event. rewrite subscribe_gate. reflexivity. }
  split; [| split; reflexivity].
  unfold updateSearchString. destruct evt as [e|]; [|exact Hgo].
  destruct (other_key e); [reflexivity | exact Hgo].
Qed.
End ECLSearchFacts.

(* ===================================================================== *)
(** ** What is displayed and what is sent *)
(* ===================================================================== *)

Module DisplayFacts.
Import Gateway Merged Search Spec JSFacts MergedFacts SearchFacts Selection.

(** The builders of the resource searches never throw. *)
Lemma resources_are_built l : forallb resultItemBuilder (map ResourceItem l) = true.
Proof. induction l as [|e l IH]; [reflexivity | exact IH]. Qed.

(** X17. What a resource search shows. When its queries have all succeeded
    and the search is still current, the container lists the merged entries
    in the merged order, each identifier once and with no page information
    ("No results" when there are none), is shown, and the icon is paused. *)
Theorem merged_results_are_listed_once :
  forall queriesArguments bundles schedule s tok w,
    List.length bundles = List.length queriesArguments ->
    complete (List.length queriesArguments) schedule ->
    isCurrent (context w) tok = true ->
    exists merged,
      snd (mergedFHIRResourceQueries queriesArguments (respond bundles) schedule)
      = Some (Fulfilled {| Gateway.results := merged |})
      /\ NoDup (identifiers merged)
      /\ get s (panels (on_success s tok (merged_response {| Gateway.results := merged |}) w))
         = {| content := match merged with
                         | [] => NoResults
                         | _ => Listing None (map ResourceItem merged)
                         end;
              visible := true; rotation := rotation (get s (panels w)); paused := true |}.
Proof.
  intros queriesArguments bundles schedule s tok w Hlen Hall Hcur.
  exists (reduce (rev (map entries bundles))).
  split; [now apply merged_resolves|]. split.
  - rewrite reduce_first_seen. apply first_seen_after_NoDup.
  - unfold on_success. rewrite Hcur. simpl negb. cbv iota.
    destruct (reduce (rev (map entries bundles))) as [|e l]; simpl; [apply get_set|].
    rewrite get_list_items.
    change (ResourceItem e :: map ResourceItem l) with (map ResourceItem (e :: l)).
    now rewrite resources_are_built.
Qed.

Lemma merged_results_are_listed_once_witness :
  exists merged,
    snd (mergedFHIRResourceQueries Sample.three_queries (respond Sample.three_bundles)
           [2; 1; 0]%nat)
    = Some (Fulfilled {| Gateway.results := merged |})
    /\ NoDup (identifiers merged)
    /\ get CodeSystemSearch
         (panels (on_success CodeSystemSearch 7
                    (merged_response {| Gateway.results := merged |}) Sample.showing))
       = {| content := match merged with
                       | [] => NoResults
                       | _ => Listing None (map ResourceItem merged)
                       end;
            visible := true;
            rotation := rotation (get CodeSystemSearch (panels Sample.showing));
            paused := true |}.
Proof.
  apply (merged_results_are_listed_once Sample.three_queries Sample.three_bundles
           [2; 1; 0]%nat CodeSystemSearch 7 Sample.showing).
  - reflexivity.
  - intros h Hh. simpl in *. lia.
  - reflexivity.
Defined.

(** X18. An expansion without [contains] (or with an empty one) is no
    error: if the search is current the container shows "No results", even
    when the expansion reports an offset and a total; no page information is
    built. *)
Theorem expansion_without_contains_shows_no_results :
  forall s p e tok w,
    isCurrent (context w) tok = true ->
    match contains e with Some l => l | None => [] end = [] ->
    get s (panels (on_success s tok (expansion_response p e) w))
    = {| content := NoResults; visible := true;
         rotation := rotation (get s (panels w)); paused := true |}
    /\ shown (errorBox (on_success s tok (expansion_response p e) w)) = false.
Proof.
  intros s p e tok w Hcur Hnone. unfold on_success, expansion_response.
  rewrite Hcur. simpl. rewrite Hnone. simpl. split; [apply get_set | reflexivity].
Qed.

Lemma expansion_without_contains_shows_no_results_witness :
  get ECLSearch
    (panels (on_success ECLSearch 7
               (expansion_response initial_paging
                  {| contains := None; expansion_offset := Some 0%Z;
                     expansion_total := Some 0%Z |})
               Sample.showing))
  = {| content := NoResults; visible := true;
       rotation := rotation (get ECLSearch (panels Sample.showing)); paused := true |}
  /\ shown (errorBox
              (on_success ECLSearch 7
                 (expansion_response initial_paging
                    {| contains := None; expansion_offset := Some 0%Z;
                       expansion_total := Some 0%Z |})
                 Sample.showing))
     = false.
Proof.
  apply (expansion_without_contains_shows_no_results ECLSearch initial_paging
           {| contains := None; expansion_offset := Some 0%Z; expansion_total := Some 0%Z |}
           7 Sample.showing); reflexivity.
Defined.

(** X19. A page change reads the fields again. After a Code System was
    selected (which rewrites the Value Set field without searching), a click
    on a page of the concept results asks for that page of the NEW value
    set, with the text now in the concept field, under the token of the
    search that built the widget; the latest token is not changed, so the
    answer is accepted exactly when that search was still current. *)
Theorem page_change_reads_the_fields_anew :
  forall codeSystem u tok page w,
    sent (onPageChange ConceptSearch tok page (selectCodeSystem codeSystem (Some u) w))
    = sent w
      ++ [ {| surface := ConceptSearch; searchToken := tok;
              requests :=
                [ query "ValueSet/$expand"
                    [ ("url", PStr u);
                      ("filter", PStr (get ConceptSearch (fields w)));
                      ("offset", PNum (count (conceptSearch (context w)) * (page - 1)));
                      ("count", PNum (count (conceptSearch (context w))));
                      ("activeOnly", PBool (activeOnly (conceptSearch (context w))));
                      ("includeDesignations",
                       PBool (includeDesignations (conceptSearch (context w)))) ] ] |} ]
    /\ isCurrent
         (context (onPageChange ConceptSearch tok page (selectCodeSystem codeSystem (Some u) w)))
         tok
       = isCurrent (context w) tok.
Proof.
  intros codeSystem u tok page w. split; reflexivity.
Qed.
End DisplayFacts.
